(** * k8s-pipeline-generator: a shallow embedding of [K8sPipelineGenerator]

    The class of [k8s-pipeline-generator.js] is embedded as functions on a
    record holding the instance fields.  JavaScript values that the code
    builds or receives (stage descriptors, rendered documents) are kept
    as an untyped value tree, because [addStage] stores whatever object
    it is handed and the renderers dereference it later. *)

From Stdlib Require Import ZArith String Ascii List.
From stdpp Require Import base decidable list strings pretty gmap fin_maps.

Local Open Scope string_scope.
Local Open Scope list_scope.
Local Set Warnings "-register-all".

(** ** JavaScript values *)

(** Plain data only: no function values, so no own property of a value is
    ever callable.  Strings are sequences of code units below 256.  A
    Number is given by the text ToString prints for it ([JNum "80"] is
    80, [JNum "1e+21"] is 1e21, [JNum "0.5"] is one half), which tells
    Numbers apart up to the sign of zero.  An object is the ordered list
    of its own properties, with [Object.prototype] as its prototype; the
    first entry of a key is the one property access sees. *)
Inductive jsval : Type :=
| JUndefined
| JNull
| JBool (b : bool)
| JNum (text : string)
| JStr (s : string)
| JArr (elems : list jsval)
| JObj (props : list (string * jsval)).

(** What can be thrown: the [Error] of [addDeployStage]; the engine's
    [TypeError] for a property read on [undefined]/[null], a call of a
    non-function or a value that cannot be converted to a string (the
    engine's message text is not modelled); and the error of a failed
    file-system call, with its code ([ENOTDIR], [EACCES], ...). *)
Inductive js_error : Type :=
| Error (message : string)
| TypeError
| SystemError (code : string).

Inductive completion (A : Type) : Type :=
| Normal (a : A)
| Throw (e : js_error).
Arguments Normal {A} a.
Arguments Throw {A} e.

Definition bind_c {A B} (m : completion A) (k : A -> completion B) : completion B :=
  match m with
  | Normal a => k a
  | Throw e => Throw e
  end.

(** Code that mutates [this] (or the file system) and may throw: the
    state survives a throw, as the fields of a JavaScript object do. *)
Definition eff (S A : Type) : Type := S -> completion A * S.

Definition ret {S A} (a : A) : eff S A := fun s => (Normal a, s).
Definition throw {S A} (e : js_error) : eff S A := fun s => (Throw e, s).
Definition bind {S A B} (m : eff S A) (k : A -> eff S B) : eff S B :=
  fun s => match m s with
           | (Normal a, s') => k a s'
           | (Throw e, s') => (Throw e, s')
           end.
Definition get {S} : eff S S := fun s => (Normal s, s).
Definition modify {S} (f : S -> S) : eff S unit := fun s => (Normal tt, f s).
Definition lift_c {S A} (m : completion A) : eff S A := fun s => (m, s).

Declare Scope eff_scope.
Delimit Scope eff_scope with eff.
Notation "x <- m ;; k" := (bind m (fun x => k))
  (at level 100, m at next level, right associativity) : eff_scope.
Notation "m ;;; k" := (bind m (fun _ => k))
  (at level 100, right associativity) : eff_scope.

Declare Scope completion_scope.
Delimit Scope completion_scope with completion.
Notation "x <- m ;; k" := (bind_c m (fun x => k))
  (at level 100, m at next level, right associativity) : completion_scope.

(** [forEach] over an array with a body that has effects. *)
Fixpoint forEach {S A} (xs : list A) (body : A -> eff S unit) : eff S unit :=
  match xs with
  | [] => ret tt
  | x :: rest => (body x ;;; forEach rest body)%eff
  end.

(** ** Strings *)

Definition dquote : string := String (ascii_of_nat 34) EmptyString.
Definition colon : ascii := ascii_of_nat 58.

(** [Array.prototype.join] on an array of strings. *)
Definition join (sep : string) (parts : list string) : string :=
  String.concat sep parts.

(** [String.prototype.split] with a one-character separator: never
    returns an empty array. *)
Fixpoint split_on (sep : ascii) (s : string) : list string :=
  match s with
  | EmptyString => [EmptyString]
  | String c rest =>
      if Ascii.eqb c sep then EmptyString :: split_on sep rest
      else match split_on sep rest with
           | [] => [String c EmptyString]
           | first :: others => String c first :: others
           end
  end.

(** [needle] occurs in [hay]. *)
Definition occurs_in (needle hay : string) : Prop :=
  exists before after, hay = before +:+ needle +:+ after.

(** ** Reading JavaScript values *)

Fixpoint lookup_prop (k : string) (props : list (string * jsval)) : jsval :=
  match props with
  | [] => JUndefined
  | (k', v) :: rest => if String.eqb k k' then v else lookup_prop k rest
  end.

(** [v.k] for a name [k] that is not an index and that [Object.prototype]
    does not define (the code reads [name], [steps], [image], [command]).
    Reading any property of [undefined] or [null] throws; an object gives
    its own property or [undefined]; arrays and strings have [length],
    and no other data property under a name (their inherited methods are
    functions, which are not values here). *)
Definition get_prop (v : jsval) (k : string) : completion jsval :=
  match v with
  | JUndefined | JNull => Throw TypeError
  | JObj props => Normal (lookup_prop k props)
  | JArr elems =>
      Normal (if String.eqb k "length" then JNum (pretty (length elems)) else JUndefined)
  | JStr s =>
      Normal (if String.eqb k "length" then JNum (pretty (String.length s)) else JUndefined)
  | _ => Normal JUndefined
  end.

Definition char_at (s : string) (i : nat) : jsval :=
  match String.get i s with
  | Some c => JStr (String c EmptyString)
  | None => JUndefined
  end.

(** [v[i]]: out of range gives [undefined], it does not throw. *)
Definition get_index (v : jsval) (i : nat) : completion jsval :=
  match v with
  | JUndefined | JNull => Throw TypeError
  | JArr elems => Normal (nth i elems JUndefined)
  | JStr s => Normal (char_at s i)
  | JObj props => Normal (lookup_prop (pretty i) props)
  | _ => Normal JUndefined
  end.

(** [v.split(':')]: only a string has a callable [split]. *)
Definition call_split (v : jsval) (sep : ascii) : completion jsval :=
  match v with
  | JStr s => Normal (JArr (map JStr (split_on sep s)))
  | _ => Throw TypeError
  end.

Definition has_own (k : string) (props : list (string * jsval)) : bool :=
  existsb (fun kv => String.eqb k (fst kv)) props.

(** The text ToString gives, or [None] where it throws a TypeError.  An
    array is joined with commas, [undefined] and [null] elements giving
    the empty text.  An object is converted by the first callable of its
    [toString] and [valueOf]: an own [toString] is data here, hence not
    callable, and the inherited [valueOf] returns the object itself, so
    the conversion throws; without an own [toString] the inherited one
    answers. *)
Fixpoint to_text (v : jsval) : option string :=
  match v with
  | JUndefined => Some "undefined"
  | JNull => Some "null"
  | JBool true => Some "true"
  | JBool false => Some "false"
  | JNum text => Some text
  | JStr s => Some s
  | JArr elems =>
      match (fix each (elems : list jsval) : option (list string) :=
               match elems with
               | [] => Some []
               | e :: rest =>
                   match match e with
                         | JUndefined | JNull => Some EmptyString
                         | _ => to_text e
                         end with
                   | Some part =>
                       match each rest with
                       | Some parts => Some (part :: parts)
                       | None => None
                       end
                   | None => None
                   end
               end) elems with
      | Some parts => Some (join "," parts)
      | None => None
      end
  | JObj props => if has_own "toString" props then None else Some "[object Object]"
  end.

(** ToString, as a template literal applies it to an embedded value. *)
Definition to_string (v : jsval) : completion string :=
  match to_text v with
  | Some text => Normal text
  | None => Throw TypeError
  end.

(** A parameter with a default value: the default applies when the
    argument is omitted or [undefined]. *)
Definition default_arg {A} (d : A) (arg : option A) : A :=
  match arg with
  | Some a => a
  | None => d
  end.

Definition default_val (d : jsval) (arg : jsval) : jsval :=
  match arg with
  | JUndefined => d
  | _ => arg
  end.

(** [options.field || fallback] on a string option: the empty string is
    falsy too. *)
Definition or_else (field : option string) (fallback : string) : string :=
  match field with
  | Some EmptyString | None => fallback
  | Some s => s
  end.

(** ToBoolean, and [v || fallback] on a value. *)
Definition truthy (v : jsval) : bool :=
  match v with
  | JUndefined | JNull | JBool false | JStr EmptyString => false
  | JNum text => negb (String.eqb text "0" || String.eqb text "NaN")
  | _ => true
  end.

Definition or_else_val (v fallback : jsval) : jsval :=
  if truthy v then v else fallback.

(** ** The generator *)

Record AwsRegistry : Type := mkAws {
  region : string;
  accountId : string;
  ecrRepository : string
}.

Record K8sPipelineGenerator : Type := mkGenerator {
  projectName : string;
  repoUrl : string;
  branch : string;
  namespace : string;
  dockerRegistry : string;
  deploymentConfig : jsval;
  stages : list jsval;
  environments : list string;
  dockerfilePath : string;
  registry_aws : AwsRegistry
}.

Definition set_stages (g : K8sPipelineGenerator) (sts : list jsval) : K8sPipelineGenerator :=
  {| projectName := projectName g; repoUrl := repoUrl g; branch := branch g;
     namespace := namespace g; dockerRegistry := dockerRegistry g;
     deploymentConfig := deploymentConfig g; stages := sts;
     environments := environments g; dockerfilePath := dockerfilePath g;
     registry_aws := registry_aws g |}.

Record Options : Type := mkOptions {
  opt_projectName : option string;
  opt_repoUrl : option string;
  opt_branch : option string;
  opt_namespace : option string;
  opt_dockerRegistry : option string;
  opt_deploymentConfig : jsval;
  opt_dockerfilePath : option string;
  opt_registry : option AwsRegistry
}.

Definition no_options : Options :=
  mkOptions None None None None None JUndefined None None.

Definition constructor (options : Options) : K8sPipelineGenerator :=
  let name := or_else (opt_projectName options) "k8s-app" in
  {| projectName := name;
     repoUrl := or_else (opt_repoUrl options) "";
     branch := or_else (opt_branch options) "main";
     namespace := or_else (opt_namespace options) "default";
     dockerRegistry := or_else (opt_dockerRegistry options) "";
     deploymentConfig := or_else_val (opt_deploymentConfig options) (JObj []);
     stages := [];
     environments := ["dev"; "staging"; "prod"];
     dockerfilePath := or_else (opt_dockerfilePath options) "./Dockerfile";
     registry_aws := default_arg
       {| region := "us-east-1"; accountId := "123456789012";
          ecrRepository := name +:+ "-repo" |} (opt_registry options) |}.

(** ** Stage Model: the add-operations

    Each is an action on the generator; returning [this] for chaining is
    the sequencing of the actions. *)

Definition addStage (stage : jsval) : eff K8sPipelineGenerator unit :=
  modify (fun g => set_stages g (stages g ++ [stage])).

Definition sh_c (script : string) : jsval :=
  JArr [JStr "sh"; JStr "-c"; JStr script].

Definition addTestStage (command image : option string) : eff K8sPipelineGenerator unit :=
  let command := default_arg "npm test" command in
  let image := default_arg "node:14" image in
  addStage (JObj [("name", JStr "test");
                  ("steps", JArr [JObj [("name", JStr "run-tests");
                                        ("image", JStr image);
                                        ("command", sh_c command)]])]).

Definition addBuildStage (buildCommand image : option string) : eff K8sPipelineGenerator unit :=
  let buildCommand := default_arg "npm run build" buildCommand in
  let image := default_arg "node:14" image in
  addStage (JObj [("name", JStr "build");
                  ("steps", JArr [JObj [("name", JStr "build-app");
                                        ("image", JStr image);
                                        ("command", sh_c buildCommand)]])]).

Definition addDockerBuildStage (imageName : string) (tag : option string)
  : eff K8sPipelineGenerator unit :=
  (g <- get ;;
   let tag := default_arg "latest" tag in
   let imageTag := dockerRegistry g +:+ "/" +:+ imageName +:+ ":" +:+ tag in
   addStage (JObj [("name", JStr "docker-build");
                   ("steps", JArr [JObj [
                      ("name", JStr "build-and-push");
                      ("image", JStr "docker:20.10.12-dind");
                      ("command", sh_c ("docker build -t " +:+ imageTag +:+ " -f "
                                        +:+ dockerfilePath g +:+ " . && docker push "
                                        +:+ imageTag));
                      ("env", JArr [JObj [("name", JStr "DOCKER_HOST");
                                          ("value", JStr "tcp://localhost:2375")]])]])]))%eff.

Definition kubectl_apply_command : jsval :=
  sh_c "kubectl apply -f /workspace/k8s/${ENVIRONMENT}/".

Definition addDeployStage (environment : option string) (resources : option jsval)
  : eff K8sPipelineGenerator unit :=
  (g <- get ;;
   let environment := default_arg "dev" environment in
   if bool_decide (environment ∈ environments g) then
     addStage (JObj [("name", JStr ("deploy-to-" +:+ environment));
                     ("steps", JArr [JObj [("name", JStr "kubectl-apply");
                                           ("image", JStr "bitnami/kubectl:latest");
                                           ("command", kubectl_apply_command)]]);
                     ("env", JArr [JObj [("name", JStr "ENVIRONMENT");
                                         ("value", JStr environment)]])])
   else
     throw (Error ("Environment " +:+ environment +:+ " is not valid. Use one of: "
                   +:+ join ", " (environments g))))%eff.

(** ** Jenkins renderer *)

Definition nl : string := String (ascii_of_nat 10) EmptyString.

(** A template literal, one entry per source line. *)
Definition text (source_lines : list string) : string := join nl source_lines.

Definition jenkins_preamble (g : K8sPipelineGenerator) : string :=
  text [
    "";
    "pipeline {";
    "  agent {";
    "    kubernetes {";
    "      yaml '''";
    "apiVersion: v1";
    "kind: Pod";
    "metadata:";
    "  labels:";
    "    app: " +:+ projectName g +:+ "-pipeline";
    "spec:";
    "  containers:";
    "  - name: jnlp";
    "    image: jenkins/inbound-agent:4.11.2-4";
    "  - name: docker";
    "    image: docker:20.10.12-dind";
    "    securityContext:";
    "      privileged: true";
    "    volumeMounts:";
    "    - name: docker-socket";
    "      mountPath: /var/run/docker.sock";
    "  - name: kubectl";
    "    image: bitnami/kubectl:latest";
    "    command:";
    "    - cat";
    "    tty: true";
    "  volumes:";
    "  - name: docker-socket";
    "    hostPath:";
    "      path: /var/run/docker.sock";
    "      type: Socket";
    "'''";
    "    }";
    "  }";
    "  ";
    "  environment {";
    "    PROJECT_NAME = " +:+ dquote +:+ projectName g +:+ dquote;
    "    DOCKER_REGISTRY = " +:+ dquote +:+ dockerRegistry g +:+ dquote;
    "    NAMESPACE = " +:+ dquote +:+ namespace g +:+ dquote;
    "    GIT_BRANCH = " +:+ dquote +:+ branch g +:+ dquote;
    "  }";
    "  ";
    "  stages {";
    "" ].

Definition checkout_block : string :=
  text [
    "";
    "    stage('Checkout') {";
    "      steps {";
    "        checkout scm";
    "      }";
    "    }";
    "" ].

Definition stage_block (name container script : string) : string :=
  text [
    "";
    "    stage('" +:+ name +:+ "') {";
    "      steps {";
    "        container('" +:+ container +:+ "') {";
    "          sh " +:+ dquote +:+ dquote +:+ dquote;
    "            " +:+ script;
    "          " +:+ dquote +:+ dquote +:+ dquote;
    "        }";
    "      }";
    "    }";
    "" ].

Definition jenkins_closing : string :=
  text [
    "";
    "  }";
    "  ";
    "  post {";
    "    always {";
    "      cleanWs()";
    "    }";
    "    success {";
    "      echo 'Pipeline completed successfully!'";
    "    }";
    "    failure {";
    "      echo 'Pipeline failed!'";
    "    }";
    "  }";
    "}";
    "" ].

(** The body of the [forEach] over [this.stages], up to the text it
    appends: the three embedded expressions are evaluated left to right,
    each converted to a string as soon as it is evaluated. *)
Definition render_stage (stage : jsval) : completion string :=
  (name <- get_prop stage "name" ;;
   title <- to_string name ;;
   steps <- get_prop stage "steps" ;;
   step <- get_index steps 0 ;;
   image <- get_prop step "image" ;;
   parts <- call_split image colon ;;
   first <- get_index parts 0 ;;
   container <- to_string first ;;
   steps' <- get_prop stage "steps" ;;
   step' <- get_index steps' 0 ;;
   command <- get_prop step' "command" ;;
   token <- get_index command 2 ;;
   script <- to_string token ;;
   Normal (stage_block title container script))%completion.

(** The state of the actions below is the local [jenkinsfileContent]. *)
Definition append_stage (stage : jsval) : eff string unit :=
  (block <- lift_c (render_stage stage) ;;
   modify (fun jenkinsfileContent => jenkinsfileContent +:+ block))%eff.

Definition generateJenkinsfile (g : K8sPipelineGenerator) : completion string :=
  let jenkinsfileContent := jenkins_preamble g in
  let jenkinsfileContent := jenkinsfileContent +:+ checkout_block in
  match forEach (stages g) append_stage jenkinsfileContent with
  | (Normal _, jenkinsfileContent) => Normal (jenkinsfileContent +:+ jenkins_closing)
  | (Throw e, _) => Throw e
  end.

(** ** Repository identifier: [repoUrl.replace(/^.*github.com\//, '')] *)

(** The pattern's atoms: a literal character, [.] and a greedy [.*]. *)
Inductive atom : Type :=
| Lit (c : ascii)
| AnyChar
| AnyStar.

(** [.] matches every code unit but a line terminator (below 256: line
    feed and carriage return). *)
Definition line_terminator (c : ascii) : bool :=
  Ascii.eqb c (ascii_of_nat 10) || Ascii.eqb c (ascii_of_nat 13).

(** Backtracking match of [pat] at the start of [s]; the result is what
    follows the match the engine finds first ([.*] takes as much as it
    can and gives back one code unit at a time). *)
Fixpoint match_here (pat : list atom) (s : string) : option string :=
  match pat with
  | [] => Some s
  | Lit c :: pat' =>
      match s with
      | String c' s' => if Ascii.eqb c' c then match_here pat' s' else None
      | EmptyString => None
      end
  | AnyChar :: pat' =>
      match s with
      | String c' s' => if line_terminator c' then None else match_here pat' s'
      | EmptyString => None
      end
  | AnyStar :: pat' =>
      (fix star (s : string) : option string :=
         match s with
         | String c' s' =>
             if line_terminator c' then match_here pat' s
             else match star s' with
                  | Some rest => Some rest
                  | None => match_here pat' s
                  end
         | EmptyString => match_here pat' s
         end) s
  end.

(** [s.replace(/^pat/, '')]: the pattern is anchored and has no flags, so
    the only candidate match starts at index 0. *)
Definition replace_anchored (pat : list atom) (s : string) : string :=
  match match_here pat s with
  | Some rest => rest
  | None => s
  end.

Definition literal (s : string) : list atom := map Lit (list_ascii_of_string s).

Definition github_pattern : list atom :=
  AnyStar :: literal "github" ++ AnyChar :: literal "com/".

Definition fullRepositoryId (url : string) : string :=
  replace_anchored github_pattern url.

(** ** What the code takes from outside

    [yaml.dump] (js-yaml) and [path.join] (Node) are library calls; the
    statements below hold for whatever text and paths they produce.  The
    serializer is taken on documents it can represent.

    [imageDefinitionEntry] is the entry of [post_build.commands] that
    echoes the image URI into [imageDefinition.json]: in the source it is
    a quoted literal that closes before [${accountId}] and is directly
    followed by unquoted text, which is not an expression of the
    language, so its value is left open; the only names in it are the
    three locals read from [this.registry.aws]. *)
Class Externals : Type := {
  yaml_dump : jsval -> string;
  path_join : string -> string -> string;
  imageDefinitionEntry : AwsRegistry -> string
}.

(** Stand-ins used to run the code on concrete inputs: a flow-style
    serializer, and a join that is [path.join] on normalised relative
    segments. *)
Fixpoint flow_dump (v : jsval) : string :=
  match v with
  | JUndefined => EmptyString
  | JNull => "null"
  | JBool true => "true"
  | JBool false => "false"
  | JNum text => text
  | JStr s => s
  | JArr elems => "[" +:+ join ", " (map flow_dump elems) +:+ "]"
  | JObj props =>
      "{" +:+ join ", " (map (fun kv => fst kv +:+ ": " +:+ flow_dump (snd kv)) props) +:+ "}"
  end.

Definition join_segments (dir name : string) : string := dir +:+ "/" +:+ name.

(** ** Object literals *)

Definition prop (k : string) (v : jsval) : string * jsval := (k, v).
Definition strs (items : list string) : jsval := JArr (map JStr items).
Definition ref (name : string) : jsval := JObj [prop "Ref" (JStr name)].
Definition getAtt (resource attribute : string) : jsval :=
  JObj [prop "Fn::GetAtt" (strs [resource; attribute])].

(** Reading a rendered document along a path of keys and indices. *)
Inductive selector : Type :=
| Key (k : string)
| Idx (i : nat).

Definition select (v : jsval) (sel : selector) : completion jsval :=
  match sel with
  | Key k => get_prop v k
  | Idx i => get_index v i
  end.

Fixpoint at_path (v : jsval) (path : list selector) : completion jsval :=
  match path with
  | [] => Normal v
  | sel :: rest => bind_c (select v sel) (fun v' => at_path v' rest)
  end.

(** ** The file system [saveToFiles] writes to

    [fs.existsSync], [fs.mkdirSync] and [fs.writeFileSync] are calls of
    Node's library on the disk of the machine.  What the disk does with a
    call is left open: [mkdirSync] and [writeFileSync] may fail (a path
    component that is a regular file, a missing parent, no permission, a
    full disk) and may have changed the disk when they do, and
    [mkdirSync] with [recursive] makes whatever parents are missing.
    [existsSync] answers and does not throw. *)
Class FileSystem : Type := {
  disk : Type;
  fs_existsSync : string -> disk -> bool;
  fs_mkdirSync : string -> bool -> disk -> option js_error * disk;
  fs_writeFileSync : string -> string -> disk -> option js_error * disk
}.

(** A call that fails throws the error the disk gives. *)
Definition outcome (failure : option js_error) : completion unit :=
  match failure with
  | Some e => Throw e
  | None => Normal tt
  end.

Section Disk.
Context `{FileSystem}.

(** The state [saveToFiles] runs in: the disk, and the calls made on it
    so far, oldest first: the paths handed to [mkdirSync], and the path
    and data handed to [writeFileSync]. *)
Record filesystem : Type := mkFs {
  disk_of : disk;
  made : list string;
  written : list (string * string)
}.

Definition existsSync (p : string) : eff filesystem bool :=
  fun fs => (Normal (fs_existsSync p (disk_of fs)), fs).

Definition mkdirSync (p : string) (recursive : bool) : eff filesystem unit :=
  fun fs => (outcome (fst (fs_mkdirSync p recursive (disk_of fs))),
             mkFs (snd (fs_mkdirSync p recursive (disk_of fs)))
                  (made fs ++ [p]) (written fs)).

Definition writeFileSync (p data : string) : eff filesystem unit :=
  fun fs => (outcome (fst (fs_writeFileSync p data (disk_of fs))),
             mkFs (snd (fs_writeFileSync p data (disk_of fs)))
                  (made fs) (written fs ++ [(p, data)])).

(** [if (!fs.existsSync(p)) { fs.mkdirSync(p, { recursive: true }); }] *)
Definition ensure_dir (p : string) : eff filesystem unit :=
  (present <- existsSync p ;;
   if negb present then mkdirSync p true else ret tt)%eff.

(** A list of writes, made in order. *)
Definition write_all (writes : list (string * string)) : eff filesystem unit :=
  forEach writes (fun w => writeFileSync (fst w) (snd w)).

End Disk.

Section Artifacts.
Context `{Externals} `{FileSystem}.

(** ** Build specification renderer *)

Definition buildSpec (g : K8sPipelineGenerator) : jsval :=
  let region := region (registry_aws g) in
  let accountId := accountId (registry_aws g) in
  let ecrRepo := ecrRepository (registry_aws g) in
  let image := accountId +:+ ".dkr.ecr." +:+ region +:+ ".amazonaws.com/" +:+ ecrRepo in
  JObj [
    prop "version" (JStr "0.2");
    prop "phases" (JObj [
      prop "pre_build" (JObj [
        prop "commands" (strs [
          "echo Logging in to Amazon ECR...";
          "aws ecr get-login-password --region " +:+ region
            +:+ " | docker login --username AWS --password-stdin "
            +:+ accountId +:+ ".dkr.ecr." +:+ region +:+ ".amazonaws.com";
          "echo Checking if repository exists...";
          "aws ecr describe-repositories --repository-names " +:+ ecrRepo
            +:+ " || aws ecr create-repository --repository-name " +:+ ecrRepo;
          "COMMIT_HASH=$(echo $CODEBUILD_RESOLVED_SOURCE_VERSION | cut -c 1-7)";
          "IMAGE_TAG=${COMMIT_HASH:=latest}" ]) ]);
      prop "build" (JObj [
        prop "commands" (strs [
          "echo Build started on `date`";
          "echo Building the Docker image: " +:+ image +:+ ":$IMAGE_TAG";
          "docker build -t " +:+ image +:+ ":$IMAGE_TAG -f " +:+ dockerfilePath g +:+ " .";
          "docker tag " +:+ image +:+ ":$IMAGE_TAG " +:+ image +:+ ":latest" ]) ]);
      prop "post_build" (JObj [
        prop "commands" (strs [
          "echo Build completed on `date`";
          "echo Pushing the Docker image...";
          "docker push " +:+ image +:+ ":$IMAGE_TAG";
          "docker push " +:+ image +:+ ":latest";
          "echo Writing artifact files...";
          imageDefinitionEntry (registry_aws g);
          "echo Generating Kubernetes manifests...";
          "mkdir -p kubernetes/";
          "envsubst < k8s/deployment.yaml > kubernetes/deployment.yaml";
          "envsubst < k8s/service.yaml > kubernetes/service.yaml" ]) ]) ]);
    prop "artifacts" (JObj [
      prop "files" (strs [
        "imageDefinition.json";
        "appspec.yaml";
        "kubernetes/**/*";
        "k8s/**/*" ]) ]) ].

Definition generateBuildSpec (g : K8sPipelineGenerator) : string :=
  yaml_dump (buildSpec g).

Definition deployBuildSpec : jsval :=
  JObj [
    prop "version" (JStr "0.2");
    prop "phases" (JObj [
      prop "install" (JObj [
        prop "commands" (strs [
          "echo Installing kubectl...";
          "curl -o kubectl https://amazon-eks.s3.us-west-2.amazonaws.com/1.21.2/2021-07-05/bin/linux/amd64/kubectl";
          "chmod +x ./kubectl";
          "mv ./kubectl /usr/local/bin/kubectl" ]) ]);
      prop "pre_build" (JObj [
        prop "commands" (strs [
          "echo Configuring kubectl...";
          "aws eks update-kubeconfig --name ${EKS_CLUSTER_NAME} --region ${AWS_REGION}" ]) ]);
      prop "build" (JObj [
        prop "commands" (strs [
          "echo Deployment started on `date`";
          "echo Updating image in Kubernetes manifests...";
          "IMAGE_URI=$(cat imageDefinition.json | jq -r '.ImageURI')";
          "sed -i " +:+ dquote +:+ "s|IMAGE_PLACEHOLDER|$IMAGE_URI|g" +:+ dquote
            +:+ " kubernetes/deployment.yaml";
          "echo Applying Kubernetes manifests...";
          "kubectl apply -f kubernetes/deployment.yaml -n ${NAMESPACE}";
          "kubectl apply -f kubernetes/service.yaml -n ${NAMESPACE}" ]) ]);
      prop "post_build" (JObj [
        prop "commands" (strs [
          "echo Deployment completed on `date`";
          "kubectl get pods -n ${NAMESPACE}";
          "kubectl get services -n ${NAMESPACE}" ]) ]) ]) ].

Definition generateDeployBuildSpec (g : K8sPipelineGenerator) : string :=
  yaml_dump deployBuildSpec.

(** ** Cloud pipeline renderer *)

Definition assumeRolePolicy (service : string) : jsval :=
  JObj [
    prop "Version" (JStr "2012-10-17");
    prop "Statement" (JArr [JObj [
      prop "Effect" (JStr "Allow");
      prop "Principal" (JObj [prop "Service" (JStr service)]);
      prop "Action" (JStr "sts:AssumeRole") ]]) ].

Definition actionType (category provider : string) : jsval :=
  JObj [
    prop "Category" (JStr category);
    prop "Owner" (JStr "AWS");
    prop "Provider" (JStr provider);
    prop "Version" (JStr "1") ].

Definition artifact (name : string) : jsval := JObj [prop "Name" (JStr name)].

Definition pipelineStages (g : K8sPipelineGenerator) : jsval :=
  JArr [
    JObj [
      prop "Name" (JStr "Source");
      prop "Actions" (JArr [JObj [
        prop "Name" (JStr "Source");
        prop "ActionTypeId" (actionType "Source" "CodeStarSourceConnection");
        prop "Configuration" (JObj [
          prop "ConnectionArn" (JStr "{{CONNECTION_ARN}}");
          prop "FullRepositoryId" (JStr (fullRepositoryId (repoUrl g)));
          prop "BranchName" (JStr (branch g)) ]);
        prop "OutputArtifacts" (JArr [artifact "SourceCode"]) ]]) ];
    JObj [
      prop "Name" (JStr "Build");
      prop "Actions" (JArr [JObj [
        prop "Name" (JStr "BuildAndPushDockerImage");
        prop "ActionTypeId" (actionType "Build" "CodeBuild");
        prop "Configuration" (JObj [prop "ProjectName" (ref "DockerBuildProject")]);
        prop "InputArtifacts" (JArr [artifact "SourceCode"]);
        prop "OutputArtifacts" (JArr [artifact "BuildOutput"]) ]]) ];
    JObj [
      prop "Name" (JStr "Deploy");
      prop "Actions" (JArr [JObj [
        prop "Name" (JStr "DeployToKubernetes");
        prop "ActionTypeId" (actionType "Build" "CodeBuild");
        prop "Configuration" (JObj [prop "ProjectName" (ref "KubernetesDeployProject")]);
        prop "InputArtifacts" (JArr [artifact "BuildOutput"]) ]]) ] ].

Definition generateAwsCodePipeline (g : K8sPipelineGenerator) : jsval :=
  let pipelineName := projectName g +:+ "-pipeline" in
  let region := region (registry_aws g) in
  let accountId := accountId (registry_aws g) in
  let ecrRepo := ecrRepository (registry_aws g) in
  let pipeline := JObj [
    prop "AWSTemplateFormatVersion" (JStr "2010-09-09");
    prop "Description" (JStr ("AWS CodePipeline for " +:+ projectName g
                              +:+ " Kubernetes deployment"));
    prop "Resources" (JObj [
      prop "ArtifactBucket" (JObj [
        prop "Type" (JStr "AWS::S3::Bucket");
        prop "Properties" (JObj [
          prop "VersioningConfiguration" (JObj [prop "Status" (JStr "Enabled")]) ]) ]);
      prop "CodeBuildServiceRole" (JObj [
        prop "Type" (JStr "AWS::IAM::Role");
        prop "Properties" (JObj [
          prop "AssumeRolePolicyDocument" (assumeRolePolicy "codebuild.amazonaws.com");
          prop "ManagedPolicyArns" (strs [
            "arn:aws:iam::aws:policy/AmazonECR-FullAccess";
            "arn:aws:iam::aws:policy/AmazonS3FullAccess" ]) ]) ]);
      prop "CodePipelineServiceRole" (JObj [
        prop "Type" (JStr "AWS::IAM::Role");
        prop "Properties" (JObj [
          prop "AssumeRolePolicyDocument" (assumeRolePolicy "codepipeline.amazonaws.com");
          prop "ManagedPolicyArns" (strs [
            "arn:aws:iam::aws:policy/AWSCodeBuildAdminAccess";
            "arn:aws:iam::aws:policy/AmazonS3FullAccess";
            "arn:aws:iam::aws:policy/AmazonECR-FullAccess" ]) ]) ]);
      prop "DockerBuildProject" (JObj [
        prop "Type" (JStr "AWS::CodeBuild::Project");
        prop "Properties" (JObj [
          prop "Name" (JStr (projectName g +:+ "-docker-build"));
          prop "ServiceRole" (getAtt "CodeBuildServiceRole" "Arn");
          prop "Artifacts" (JObj [prop "Type" (JStr "CODEPIPELINE")]);
          prop "Environment" (JObj [
            prop "Type" (JStr "LINUX_CONTAINER");
            prop "ComputeType" (JStr "BUILD_GENERAL1_SMALL");
            prop "Image" (JStr "aws/codebuild/amazonlinux2-x86_64-standard:3.0");
            prop "PrivilegedMode" (JBool true) ]);
          prop "Source" (JObj [
            prop "Type" (JStr "CODEPIPELINE");
            prop "BuildSpec" (JStr (generateBuildSpec g)) ]) ]) ]);
      prop "KubernetesDeployProject" (JObj [
        prop "Type" (JStr "AWS::CodeBuild::Project");
        prop "Properties" (JObj [
          prop "Name" (JStr (projectName g +:+ "-k8s-deploy"));
          prop "ServiceRole" (getAtt "CodeBuildServiceRole" "Arn");
          prop "Artifacts" (JObj [prop "Type" (JStr "CODEPIPELINE")]);
          prop "Environment" (JObj [
            prop "Type" (JStr "LINUX_CONTAINER");
            prop "ComputeType" (JStr "BUILD_GENERAL1_SMALL");
            prop "Image" (JStr "aws/codebuild/amazonlinux2-x86_64-standard:3.0") ]);
          prop "Source" (JObj [
            prop "Type" (JStr "CODEPIPELINE");
            prop "BuildSpec" (JStr (generateDeployBuildSpec g)) ]) ]) ]);
      prop "Pipeline" (JObj [
        prop "Type" (JStr "AWS::CodePipeline::Pipeline");
        prop "Properties" (JObj [
          prop "Name" (JStr pipelineName);
          prop "RoleArn" (getAtt "CodePipelineServiceRole" "Arn");
          prop "ArtifactStore" (JObj [
            prop "Type" (JStr "S3");
            prop "Location" (ref "ArtifactBucket") ]);
          prop "Stages" (pipelineStages g) ]) ]) ]);
    prop "Outputs" (JObj [
      prop "PipelineUrl" (JObj [
        prop "Description" (JStr "URL to the AWS CodePipeline console");
        prop "Value" (JObj [
          prop "Fn::Sub" (JStr ("https://${AWS::Region}.console.aws.amazon.com/codepipeline/home?region=${AWS::Region}#/view/"
                                +:+ pipelineName)) ]) ]) ]) ] in
  pipeline.

(** ** Manifest renderer *)

Definition k8sDeployment (g : K8sPipelineGenerator) (imageName tag resources : jsval) : jsval :=
  let tag := default_val (JStr "latest") tag in
  let resources :=
    default_val (JObj [prop "cpu" (JStr "100m"); prop "memory" (JStr "128Mi")]) resources in
  let deployment := JObj [
    prop "apiVersion" (JStr "apps/v1");
    prop "kind" (JStr "Deployment");
    prop "metadata" (JObj [
      prop "name" (JStr (projectName g));
      prop "namespace" (JStr (namespace g));
      prop "labels" (JObj [prop "app" (JStr (projectName g))]) ]);
    prop "spec" (JObj [
      prop "replicas" (JNum "1");
      prop "selector" (JObj [
        prop "matchLabels" (JObj [prop "app" (JStr (projectName g))]) ]);
      prop "template" (JObj [
        prop "metadata" (JObj [
          prop "labels" (JObj [prop "app" (JStr (projectName g))]) ]);
        prop "spec" (JObj [
          prop "containers" (JArr [JObj [
            prop "name" (JStr (projectName g));
            prop "image" (JStr "IMAGE_PLACEHOLDER");
            prop "imagePullPolicy" (JStr "Always");
            prop "ports" (JArr [JObj [prop "containerPort" (JNum "8080")]]);
            prop "resources" (JObj [prop "requests" resources]) ]]) ]) ]) ]) ] in
  deployment.

Definition generateK8sDeployment (g : K8sPipelineGenerator) (imageName tag resources : jsval)
  : string :=
  yaml_dump (k8sDeployment g imageName tag resources).

Definition k8sService (g : K8sPipelineGenerator) (port targetPort type : jsval) : jsval :=
  let port := default_val (JNum "80") port in
  let targetPort := default_val (JNum "8080") targetPort in
  let type := default_val (JStr "ClusterIP") type in
  let service := JObj [
    prop "apiVersion" (JStr "v1");
    prop "kind" (JStr "Service");
    prop "metadata" (JObj [
      prop "name" (JStr (projectName g));
      prop "namespace" (JStr (namespace g));
      prop "labels" (JObj [prop "app" (JStr (projectName g))]) ]);
    prop "spec" (JObj [
      prop "type" type;
      prop "ports" (JArr [JObj [
        prop "port" port;
        prop "targetPort" targetPort;
        prop "protocol" (JStr "TCP") ]]);
      prop "selector" (JObj [prop "app" (JStr (projectName g))]) ]) ] in
  service.

Definition generateK8sService (g : K8sPipelineGenerator) (port targetPort type : jsval)
  : string :=
  yaml_dump (k8sService g port targetPort type).

(** ** Output writer *)

(** The body of the second [forEach] over [this.environments]. *)
Definition save_manifests (g : K8sPipelineGenerator) (k8sDir env : string)
  : eff filesystem unit :=
  (let envDir := path_join k8sDir env in
   let deploymentPath := path_join envDir "deployment.yaml" in
   writeFileSync deploymentPath
     (generateK8sDeployment g (JStr (projectName g +:+ "-" +:+ env)) JUndefined JUndefined) ;;;
   let servicePath := path_join envDir "service.yaml" in
   writeFileSync servicePath (generateK8sService g JUndefined JUndefined JUndefined))%eff.

Definition saveToFiles (g : K8sPipelineGenerator) (outputDir : option string)
  : eff filesystem jsval :=
  (let outputDir := default_arg "./pipeline" outputDir in
   ensure_dir outputDir ;;;
   let k8sDir := path_join outputDir "k8s" in
   ensure_dir k8sDir ;;;
   forEach (environments g) (fun env => ensure_dir (path_join k8sDir env)) ;;;
   let jenkinsfilePath := path_join outputDir "Jenkinsfile" in
   jenkinsfile <- lift_c (generateJenkinsfile g) ;;
   writeFileSync jenkinsfilePath jenkinsfile ;;;
   let awsCodePipelinePath := path_join outputDir "aws-codepipeline.yaml" in
   writeFileSync awsCodePipelinePath (yaml_dump (generateAwsCodePipeline g)) ;;;
   let buildspecPath := path_join outputDir "buildspec.yml" in
   writeFileSync buildspecPath (generateBuildSpec g) ;;;
   let deployBuildspecPath := path_join outputDir "deploy-buildspec.yml" in
   writeFileSync deployBuildspecPath (generateDeployBuildSpec g) ;;;
   forEach (environments g) (save_manifests g k8sDir) ;;;
   ret (JObj [
     prop "jenkinsfilePath" (JStr jenkinsfilePath);
     prop "awsCodePipelinePath" (JStr awsCodePipelinePath);
     prop "buildspecPath" (JStr buildspecPath);
     prop "deployBuildspecPath" (JStr deployBuildspecPath);
     prop "k8sDir" (JStr k8sDir) ]))%eff.

(** Where [saveToFiles] puts the manifest [file] of [env]. *)
Definition manifest_path (outputDir env file : string) : string :=
  path_join (path_join (path_join outputDir "k8s") env) file.


(** The writes of [saveToFiles], in the order it makes them. *)
Definition top_level_writes (g : K8sPipelineGenerator) (outputDir jenkinsfile : string)
  : list (string * string) :=
  [(path_join outputDir "Jenkinsfile", jenkinsfile);
   (path_join outputDir "aws-codepipeline.yaml", yaml_dump (generateAwsCodePipeline g));
   (path_join outputDir "buildspec.yml", generateBuildSpec g);
   (path_join outputDir "deploy-buildspec.yml", generateDeployBuildSpec g)].

Definition manifest_writes (g : K8sPipelineGenerator) (k8sDir : string) (envs : list string)
  : list (string * string) :=
  flat_map (fun env =>
              [(path_join (path_join k8sDir env) "deployment.yaml",
                generateK8sDeployment g (JStr (projectName g +:+ "-" +:+ env))
                                      JUndefined JUndefined);
               (path_join (path_join k8sDir env) "service.yaml",
                generateK8sService g JUndefined JUndefined JUndefined)]) envs.

Definition all_writes (g : K8sPipelineGenerator) (outputDir jenkinsfile : string)
  : list (string * string) :=
  top_level_writes g outputDir jenkinsfile
  ++ manifest_writes g (path_join outputDir "k8s") (environments g).

(** The paths [saveToFiles] writes to. *)
Definition written_paths (g : K8sPipelineGenerator) (outputDir : string) : list string :=
  map (path_join outputDir)
      ["Jenkinsfile"; "aws-codepipeline.yaml"; "buildspec.yml"; "deploy-buildspec.yml"]
  ++ flat_map (fun env =>
                 [path_join (path_join (path_join outputDir "k8s") env) "deployment.yaml";
                  path_join (path_join (path_join outputDir "k8s") env) "service.yaml"])
              (environments g).

(** The directories [saveToFiles] asks for. *)
Definition wanted_directories (g : K8sPipelineGenerator) (outputDir : string) : list string :=
  outputDir :: path_join outputDir "k8s"
  :: map (path_join (path_join outputDir "k8s")) (environments g).

(** The object [saveToFiles] returns. *)
Definition returned_paths (outputDir : string) : jsval :=
  JObj [
    prop "jenkinsfilePath" (JStr (path_join outputDir "Jenkinsfile"));
    prop "awsCodePipelinePath" (JStr (path_join outputDir "aws-codepipeline.yaml"));
    prop "buildspecPath" (JStr (path_join outputDir "buildspec.yml"));
    prop "deployBuildspecPath" (JStr (path_join outputDir "deploy-buildspec.yml"));
    prop "k8sDir" (JStr (path_join outputDir "k8s")) ].

End Artifacts.


(** The stand-ins, for running the code on concrete inputs. *)
Definition stand_ins : Externals := {|
  yaml_dump := flow_dump;
  path_join := join_segments;
  imageDefinitionEntry := fun _ => EmptyString
|}.

(** The options of [example.js] and the generator built from them. *)
Definition example_options : Options :=
  {| opt_projectName := Some "my-nodejs-app";
     opt_repoUrl := Some "https://github.com/myorg/my-nodejs-app";
     opt_branch := Some "main";
     opt_namespace := Some "production";
     opt_dockerRegistry := Some "myorg";
     opt_deploymentConfig := JUndefined;
     opt_dockerfilePath := Some "./Dockerfile";
     opt_registry := Some {| region := "us-west-2"; accountId := "123456789012";
                             ecrRepository := "my-nodejs-app" |} |}.

Definition example_generator : K8sPipelineGenerator := constructor example_options.

(** A stage with a second step and a five-token command, against the
    stage [addTestStage] builds: same block. *)
Definition crowded_stage : jsval :=
  JObj [("name", JStr "test");
        ("steps", JArr [
           JObj [("name", JStr "run-tests"); ("image", JStr "node:16:alpine");
                 ("command", JArr [JStr "bash"; JNull; JStr "npm test"; JStr "-x"; JNum "7"])];
           JObj [("name", JStr "lint"); ("image", JStr "eslint:8");
                 ("command", sh_c "npm run lint")]])].

Definition plain_stage : jsval :=
  JObj [("name", JStr "test");
        ("steps", JArr [
           JObj [("name", JStr "run-tests"); ("image", JStr "node:16:alpine");
                 ("command", sh_c "npm test")]])].

(** Decidable form of [occurs_in]. *)
Fixpoint contains (needle hay : string) : bool :=
  String.prefix needle hay
  || match hay with
     | String _ hay' => contains needle hay'
     | EmptyString => false
     end.

(** The blocks appended by the [forEach], one after the other. *)
Definition concat_blocks (blocks : list string) : string :=
  foldr String.append EmptyString blocks.

(** The shape [generateJenkinsfile] relies on: an object whose [steps] is
    a non-empty array, whose first step is an object with a string
    [image] and a [command] array of at least three tokens. *)
Definition well_shaped (stage : jsval) : bool :=
  match stage with
  | JObj props =>
      match lookup_prop "steps" props with
      | JArr (JObj step :: _) =>
          match lookup_prop "image" step, lookup_prop "command" step with
          | JStr _, JArr tokens => (3 <=? length tokens)%nat
          | _, _ => false
          end
      | _ => false
      end
  | _ => false
  end.

(** A stage whose only step has a two-token command, and a stage with no
    step at all. *)
Definition short_command_stage : jsval :=
  JObj [("name", JStr "lint");
        ("steps", JArr [JObj [("name", JStr "run-lint"); ("image", JStr "node:14");
                              ("command", JArr [JStr "sh"; JStr "-c"])]])].

Definition no_steps_stage : jsval :=
  JObj [("name", JStr "idle"); ("steps", JArr [])].

(** The stage model of the ordering example: test, build, deploy-to-dev
    on a generator built with no options. *)
Definition three_stage_generator : K8sPipelineGenerator :=
  snd ((addTestStage None None ;;; addBuildStage None None ;;;
        addDeployStage (Some "dev") None)%eff (constructor no_options)).

(** A repository URL on another host, with a path segment [github-com]. *)
Definition other_host_url : string := "https://example.org/github-com/owner/repo".

(** The path from a Deployment document to its containers, and from the
    cloud pipeline document to its stages. *)
Definition containers_path : list selector :=
  [Key "spec"; Key "template"; Key "spec"; Key "containers"].

Definition stages_path : list selector :=
  [Key "Resources"; Key "Pipeline"; Key "Properties"; Key "Stages"].

(** A call of one of the add-operations.  Each returns [this], so calls
    are chained as in [example.js]; a throw ends the chain. *)
Inductive add_call : Type :=
| CallAddStage (stage : jsval)
| CallAddTestStage (command image : option string)
| CallAddBuildStage (buildCommand image : option string)
| CallAddDockerBuildStage (imageName : string) (tag : option string)
| CallAddDeployStage (environment : option string) (resources : option jsval).

Definition run_call (call : add_call) : eff K8sPipelineGenerator unit :=
  match call with
  | CallAddStage stage => addStage stage
  | CallAddTestStage command image => addTestStage command image
  | CallAddBuildStage buildCommand image => addBuildStage buildCommand image
  | CallAddDockerBuildStage imageName tag => addDockerBuildStage imageName tag
  | CallAddDeployStage environment resources => addDeployStage environment resources
  end.

Definition chain (calls : list add_call) : eff K8sPipelineGenerator unit :=
  forEach calls run_call.

(** The calls that build their stage themselves. *)
Definition builds_its_stage (call : add_call) : bool :=
  match call with
  | CallAddStage _ => false
  | _ => true
  end.

(** The chain of [example.js]. *)
Definition example_calls : list add_call :=
  [CallAddTestStage (Some "npm test") (Some "node:16");
   CallAddBuildStage (Some "npm ci && npm run build") (Some "node:16");
   CallAddDockerBuildStage "my-nodejs-app" (Some "${GIT_COMMIT:0:7}");
   CallAddDeployStage (Some "dev") None;
   CallAddDeployStage (Some "staging") None;
   CallAddDeployStage (Some "prod") None].

(** ToString gives a text for [v]. *)
Definition converts (v : jsval) : bool :=
  match to_text v with
  | Some _ => true
  | None => false
  end.

(** Every read and conversion of [render_stage] succeeds: the stage has
    a first step, whose [image] is a string and whose [command] is
    neither [undefined] nor [null], and the stage's [name] and the token
    at index 2 of that command convert to a string. *)
Definition readable (stage : jsval) : bool :=
  match get_prop stage "name", get_prop stage "steps" with
  | Normal name, Normal steps =>
      match get_index steps 0 with
      | Normal step =>
          match get_prop step "image", get_prop step "command" with
          | Normal (JStr _), Normal command =>
              match get_index command 2 with
              | Normal token => converts name && converts token
              | Throw _ => false
              end
          | _, _ => false
          end
      | Throw _ => false
      end
  | _, _ => false
  end.

(** The delimiter of the shell block. *)
Definition triple_quote : string := dquote +:+ dquote +:+ dquote.

(** [block] has, in this order, a title line for [title], a container
    line for [container] and, right after it, a shell block holding
    [script] between its two delimiter lines. *)
Definition block_shows (title container script block : string) : Prop :=
  exists before between after,
    block = before +:+ "stage('" +:+ title +:+ "') {" +:+ between
            +:+ "container('" +:+ container +:+ "') {" +:+ nl
            +:+ "          sh " +:+ triple_quote +:+ nl
            +:+ "            " +:+ script +:+ nl
            +:+ "          " +:+ triple_quote +:+ after.

(** A stage of the relied-on shape whose [name] and third command token
    also convert to a string. *)
Definition renderable (stage : jsval) : bool :=
  well_shaped stage
  && match stage with
     | JObj props =>
         converts (lookup_prop "name" props)
         && match lookup_prop "steps" props with
            | JArr (JObj step :: _) =>
                match lookup_prop "command" step with
                | JArr tokens => converts (nth 2 tokens JUndefined)
                | _ => false
                end
            | _ => false
            end
     | _ => false
     end.

(** A stage of the relied-on shape whose name is an object with an own
    [toString] property. *)
Definition toString_named_stage : jsval :=
  JObj [("name", JObj [("toString", JNum "1")]);
        ("steps", JArr [JObj [("name", JStr "run-tests"); ("image", JStr "node:14");
                              ("command", JArr [JStr "sh"; JStr "-c"; JStr "npm test"])]])].

(** The resources a template refers to by [Ref] or [Fn::GetAtt]. *)
Fixpoint refs_of (v : jsval) : list string :=
  match v with
  | JArr elems => flat_map refs_of elems
  | JObj props =>
      match lookup_prop "Ref" props, lookup_prop "Fn::GetAtt" props with
      | JStr name, _ => [name]
      | _, JArr (JStr name :: _) => [name]
      | _, _ =>
          (fix go (props : list (string * jsval)) : list string :=
             match props with
             | [] => []
             | (_, v') :: rest => refs_of v' ++ go rest
             end) props
      end
  | _ => []
  end.

Definition own_keys (v : jsval) : list string :=
  match v with
  | JObj props => map fst props
  | _ => []
  end.

(** The text the last write to [p] in a sequence of writes hands over. *)
Fixpoint last_write (p : string) (writes : list (string * string)) : option string :=
  match writes with
  | [] => None
  | (p', data) :: rest =>
      match last_write p rest with
      | Some later => Some later
      | None => if decide (p' = p) then Some data else None
      end
  end.

(** A disk in memory, for running the code on concrete inputs.  A path is
    kept as it is written, its segments separated by single slashes; the
    root and [.] are directories that are always there.  [mkdirSync] with
    [recursive] makes the missing directories along the path and fails
    with [ENOTDIR] on a regular file on the way ([EEXIST] when the path
    itself is one); [writeFileSync] fails with [EISDIR] on a directory,
    and with [ENOENT] or [ENOTDIR] when the parent is missing or is a
    regular file. *)
Inductive node : Type :=
| Dir
| File (data : string).

Fixpoint ancestors_from (before rest : string) : list string :=
  match rest with
  | EmptyString => []
  | String c rest' =>
      (if Ascii.eqb c "/" then [before] else [])
      ++ ancestors_from (before +:+ String c EmptyString) rest'
  end.

(** The directories above [p], outermost first. *)
Definition ancestors (p : string) : list string := ancestors_from EmptyString p.

Definition node_at (p : string) (m : gmap string node) : option node :=
  if String.eqb p EmptyString || String.eqb p "." then Some Dir else m !! p.

Definition parent_at (p : string) (m : gmap string node) : option node :=
  match last (ancestors p) with
  | Some parent => node_at parent m
  | None => Some Dir
  end.

Fixpoint make_path (target : string) (path : list string) (m : gmap string node)
  : option js_error * gmap string node :=
  match path with
  | [] => (None, m)
  | p :: rest =>
      match node_at p m with
      | Some Dir => make_path target rest m
      | Some (File _) =>
          (Some (SystemError (if String.eqb p target then "EEXIST" else "ENOTDIR")), m)
      | None => make_path target rest (<[p := Dir]> m)
      end
  end.

Definition memory_mkdir (p : string) (recursive : bool) (m : gmap string node)
  : option js_error * gmap string node :=
  if recursive then make_path p (ancestors p ++ [p]) m
  else match node_at p m, parent_at p m with
       | Some _, _ => (Some (SystemError "EEXIST"), m)
       | None, Some Dir => (None, <[p := Dir]> m)
       | None, Some (File _) => (Some (SystemError "ENOTDIR"), m)
       | None, None => (Some (SystemError "ENOENT"), m)
       end.

Definition memory_write (p data : string) (m : gmap string node)
  : option js_error * gmap string node :=
  match node_at p m, parent_at p m with
  | Some Dir, _ => (Some (SystemError "EISDIR"), m)
  | _, Some Dir => (None, <[p := File data]> m)
  | _, Some (File _) => (Some (SystemError "ENOTDIR"), m)
  | _, None => (Some (SystemError "ENOENT"), m)
  end.

Definition memory_fs : FileSystem := {|
  disk := gmap string node;
  fs_existsSync := fun p m => bool_decide (is_Some (node_at p m));
  fs_mkdirSync := memory_mkdir;
  fs_writeFileSync := memory_write
|}.

(** An empty disk; one that already holds a file in the output
    directory; and one where a regular file sits where the [k8s]
    directory is to be. *)
Definition empty_fs : @filesystem memory_fs := @mkFs memory_fs ∅ [] [].

Definition seeded_fs : @filesystem memory_fs :=
  @mkFs memory_fs {["out" := Dir; "out/notes.txt" := File "keep"]} [] [].

Definition blocked_fs : @filesystem memory_fs :=
  @mkFs memory_fs {["out" := Dir; "out/k8s" := File "not a directory"]} [] [].

(** * Properties *)

(** ** Strings *)

Lemma append_cons (c : ascii) (a b : string) : String c a +:+ b = String c (a +:+ b).
Proof. reflexivity. Qed.

Lemma append_empty_l (a : string) : "" +:+ a = a.
Proof. reflexivity. Qed.

Lemma append_assoc (a b c : string) : (a +:+ b) +:+ c = a +:+ b +:+ c.
Proof.
  induction a as [|ch a IH]; [reflexivity |].
  now rewrite !append_cons, IH.
Qed.

Lemma append_empty_r (a : string) : a +:+ "" = a.
Proof.
  induction a as [|ch a IH]; [reflexivity |].
  now rewrite append_cons, IH.
Qed.

Lemma occurs_in_refl (s : string) : occurs_in s s.
Proof. exists "", "". now rewrite append_empty_l, append_empty_r. Qed.

Lemma occurs_in_prepend (e a b : string) : occurs_in e b -> occurs_in e (a +:+ b).
Proof.
  intros (before & after & ->). exists (a +:+ before), after.
  now rewrite append_assoc.
Qed.

Lemma occurs_in_append (e a b : string) : occurs_in e a -> occurs_in e (a +:+ b).
Proof.
  intros (before & after & ->). exists before, (after +:+ b).
  now rewrite !append_assoc.
Qed.

Lemma join_cons (sep x y : string) (rest : list string) :
  join sep (x :: y :: rest) = x +:+ sep +:+ join sep (y :: rest).
Proof. reflexivity. Qed.

Lemma join_occurs (sep e : string) (parts : list string) :
  e ∈ parts -> occurs_in e (join sep parts).
Proof.
  induction parts as [|x [|y rest] IH]; intros Hin.
  - inversion Hin.
  - apply list_elem_of_singleton in Hin as ->. apply occurs_in_refl.
  - rewrite join_cons. apply elem_of_cons in Hin as [-> | Hin].
    + apply occurs_in_append, occurs_in_refl.
    + now apply occurs_in_prepend, occurs_in_prepend, IH.
Qed.

(** ** Stage Model *)

Lemma addStage_appends (stage : jsval) (g : K8sPipelineGenerator) :
  addStage stage g = (Normal tt, set_stages g (stages g ++ [stage])).
Proof. reflexivity. Qed.

(** C1. [addDeployStage] with an environment outside [this.environments]
    throws an [Error] whose message lists every known environment, and
    leaves the generator as it was: no stage is appended and the number
    of stages is the same. *)
Theorem addDeployStage_invalid_environment
    (g : K8sPipelineGenerator) (environment : string) (resources : option jsval) :
  environment ∉ environments g ->
  exists message,
    addDeployStage (Some environment) resources g = (Throw (Error message), g)
    /\ message = "Environment " +:+ environment +:+ " is not valid. Use one of: "
                 +:+ join ", " (environments g)
    /\ (forall e, e ∈ environments g -> occurs_in e message)
    /\ length (stages (snd (addDeployStage (Some environment) resources g)))
       = length (stages g).
Proof.
  intros Hout.
  assert (Hrun : addDeployStage (Some environment) resources g
                 = (Throw (Error ("Environment " +:+ environment
                                  +:+ " is not valid. Use one of: "
                                  +:+ join ", " (environments g))), g)).
  { unfold addDeployStage, bind, get. simpl.
    now rewrite bool_decide_eq_false_2. }
  eexists. split; [exact Hrun |]. split; [reflexivity |]. split.
  - intros e He. do 3 apply occurs_in_prepend. now apply join_occurs.
  - now rewrite Hrun.
Qed.

Lemma addDeployStage_invalid_environment_witness :
  exists message,
    addDeployStage (Some "qa") None example_generator
    = (Throw (Error message), example_generator)
    /\ message = "Environment qa is not valid. Use one of: dev, staging, prod"
    /\ (forall e, e ∈ environments example_generator -> occurs_in e message)
    /\ length (stages (snd (addDeployStage (Some "qa") None example_generator))) = 0.
Proof.
  apply (addDeployStage_invalid_environment example_generator "qa" None).
  vm_compute. intros Hin. repeat (apply elem_of_cons in Hin as [Heq | Hin]; [discriminate Heq |]).
  inversion Hin.
Defined.

(** C5. For a known environment, [addDeployStage] appends a stage with
    exactly one step, and that step runs the fixed kubectl-apply command;
    but the step has no [env] attribute: the ENVIRONMENT pair is a
    property of the stage object, next to [steps]. *)
Theorem addDeployStage_environment_pair_on_stage
    (g : K8sPipelineGenerator) (environment : string) (resources : option jsval) :
  environment ∈ environments g ->
  exists stage step,
    addDeployStage (Some environment) resources g
    = (Normal tt, set_stages g (stages g ++ [stage]))
    /\ get_prop stage "name" = Normal (JStr ("deploy-to-" +:+ environment))
    /\ get_prop stage "steps" = Normal (JArr [step])
    /\ get_prop step "command" = Normal kubectl_apply_command
    /\ get_prop step "env" = Normal JUndefined
    /\ get_prop stage "env"
       = Normal (JArr [JObj [("name", JStr "ENVIRONMENT"); ("value", JStr environment)]]).
Proof.
  intros Hin. do 2 eexists. split.
  - unfold addDeployStage, bind, get. simpl.
    rewrite bool_decide_eq_true_2 by exact Hin. apply addStage_appends.
  - repeat split; reflexivity.
Qed.

Lemma addDeployStage_environment_pair_on_stage_witness :
  exists stage step,
    addDeployStage (Some "dev") None example_generator
    = (Normal tt, set_stages example_generator (stages example_generator ++ [stage]))
    /\ get_prop stage "name" = Normal (JStr "deploy-to-dev")
    /\ get_prop stage "steps" = Normal (JArr [step])
    /\ get_prop step "command" = Normal kubectl_apply_command
    /\ get_prop step "env" = Normal JUndefined
    /\ get_prop stage "env"
       = Normal (JArr [JObj [("name", JStr "ENVIRONMENT"); ("value", JStr "dev")]]).
Proof.
  apply (addDeployStage_environment_pair_on_stage example_generator "dev" None).
  vm_compute. apply list_elem_of_here.
Defined.

(** ** Jenkins renderer *)

Lemma split_on_nonempty (sep : ascii) (s : string) : split_on sep s <> [].
Proof.
  induction s as [|c s IH]; simpl; [discriminate |].
  destruct (Ascii.eqb c sep); [discriminate |].
  destruct (split_on sep s); [contradiction | discriminate].
Qed.


Lemma nth_map_JStr (i : nat) (parts : list string) :
  i < length parts ->
  nth i (map JStr parts) JUndefined = JStr (nth i parts EmptyString).
Proof.
  revert i. induction parts as [|p parts IH]; intros [|i] Hlt; simpl in *; try lia; auto.
  apply IH. lia.
Qed.

Lemma to_string_throws (v : jsval) (e : js_error) :
  to_string v = Throw e -> e = TypeError.
Proof. unfold to_string. destruct (to_text v); congruence. Qed.

Lemma converts_to_string (v : jsval) :
  converts v = true <-> exists text, to_string v = Normal text.
Proof.
  unfold converts, to_string. destruct (to_text v); split; eauto.
  - discriminate.
  - intros (text & Htext). discriminate.
Qed.

Lemma stage_block_shows (title container script : string) :
  block_shows title container script (stage_block title container script).
Proof.
  exists (nl +:+ "    "), ("" +:+ nl +:+ "      steps {" +:+ nl +:+ "        "),
         (nl +:+ "        }" +:+ nl +:+ "      }" +:+ nl +:+ "    }" +:+ nl +:+ "").
  unfold stage_block, text, join, triple_quote. cbn [String.concat].
  change "    stage('" with ("    " +:+ "stage('").
  change "        container('" with ("        " +:+ "container('").
  rewrite !append_empty_l, !append_assoc. reflexivity.
Qed.

(** What [render_stage] computes once the reads and conversions it
    depends on are known. *)
Lemma render_stage_reads (stage name steps step command token : jsval)
    (image title script : string) :
  get_prop stage "name" = Normal name ->
  to_string name = Normal title ->
  get_prop stage "steps" = Normal steps ->
  get_index steps 0 = Normal step ->
  get_prop step "image" = Normal (JStr image) ->
  get_prop step "command" = Normal command ->
  get_index command 2 = Normal token ->
  to_string token = Normal script ->
  render_stage stage
  = Normal (stage_block title (nth 0 (split_on colon image) EmptyString) script).
Proof.
  intros Hname Htitle Hsteps Hstep Himage Hcommand Htoken Hscript. unfold render_stage.
  rewrite Hname; simpl. rewrite Htitle; simpl. rewrite Hsteps; simpl.
  rewrite Hstep; simpl. rewrite Himage; simpl.
  rewrite nth_map_JStr.
  - simpl. rewrite Hcommand; simpl. rewrite Htoken; simpl. now rewrite Hscript.
  - pose proof (split_on_nonempty colon image).
    destruct (split_on colon image); [contradiction | simpl; lia].
Qed.

Lemma forEach_cons_normal (stage : jsval) (rest : list jsval) (content block : string) :
  render_stage stage = Normal block ->
  forEach (stage :: rest) append_stage content
  = forEach rest append_stage (content +:+ block).
Proof.
  intros Hrender. simpl. unfold bind at 1, append_stage at 1, bind, lift_c, modify.
  now rewrite Hrender.
Qed.

Lemma forEach_cons_throw (stage : jsval) (rest : list jsval) (content : string) (e : js_error) :
  render_stage stage = Throw e ->
  forEach (stage :: rest) append_stage content = (Throw e, content).
Proof.
  intros Hrender. simpl. unfold bind at 1, append_stage at 1, bind, lift_c, modify.
  now rewrite Hrender.
Qed.




Example crowded_stage_renders_as_plain :
  render_stage crowded_stage = render_stage plain_stage
  /\ render_stage plain_stage = Normal (stage_block "test" "node" "npm test").
Proof. split; reflexivity. Qed.

(** The loop appends the blocks of the stages in order, when every stage
    renders. *)
Lemma forEach_append_stage_blocks (sts : list jsval) (blocks : list string) (content : string) :
  Forall2 (fun stage block => render_stage stage = Normal block) sts blocks ->
  forEach sts append_stage content = (Normal tt, content +:+ concat_blocks blocks).
Proof.
  intros Hall. revert content.
  induction Hall as [|stage block sts blocks Hrender _ IH]; intros content.
  - simpl. unfold ret. now rewrite append_empty_r.
  - rewrite (forEach_cons_normal _ _ _ _ Hrender), IH. simpl.
    now rewrite append_assoc.
Qed.

Lemma forEach_append_stage_inv (sts : list jsval) (content content' : string) (u : unit) :
  forEach sts append_stage content = (Normal u, content') ->
  exists blocks,
    Forall2 (fun stage block => render_stage stage = Normal block) sts blocks
    /\ content' = content +:+ concat_blocks blocks.
Proof.
  revert content. induction sts as [|stage sts IH]; intros content Hrun.
  - simpl in Hrun. injection Hrun as _ <-. exists []. split; [constructor |].
    simpl. now rewrite append_empty_r.
  - destruct (render_stage stage) as [block | e] eqn:Hrender.
    + rewrite (forEach_cons_normal _ _ _ _ Hrender) in Hrun.
      destruct (IH _ Hrun) as (blocks & Hall & ->).
      exists (block :: blocks). split; [now constructor |].
      simpl. now rewrite append_assoc.
    + rewrite (forEach_cons_throw _ _ _ _ Hrender) in Hrun. discriminate.
Qed.

(** Every failure of a read is the engine's TypeError. *)
Lemma render_stage_throws_TypeError (stage : jsval) (e : js_error) :
  render_stage stage = Throw e -> e = TypeError.
Proof.
  assert (Hprop : forall v k e', get_prop v k = Throw e' -> e' = TypeError).
  { intros [] k e' Hthrow; simpl in Hthrow; congruence. }
  assert (Hindex : forall v i e', get_index v i = Throw e' -> e' = TypeError).
  { intros [] i e' Hthrow; simpl in Hthrow; congruence. }
  assert (Hsplit : forall v e', call_split v colon = Throw e' -> e' = TypeError).
  { intros [] e' Hthrow; simpl in Hthrow; congruence. }
  pose proof to_string_throws as Htext.
  unfold render_stage. intros Hthrow.
  repeat match type of Hthrow with
         | bind_c ?m _ = Throw _ =>
             let Hm := fresh "Hm" in
             destruct m eqn:Hm; simpl in Hthrow;
             [| injection Hthrow as <-; eauto]
         end.
  discriminate.
Qed.

Lemma forEach_append_stage_throws (sts : list jsval) (content : string) :
  (exists stage, stage ∈ sts /\ render_stage stage = Throw TypeError) ->
  fst (forEach sts append_stage content) = Throw TypeError.
Proof.
  intros (bad & Hin & Hbad). revert content.
  induction sts as [|stage sts IH]; intros content; [inversion Hin |].
  destruct (render_stage stage) as [block | e] eqn:Hrender.
  - rewrite (forEach_cons_normal _ _ _ _ Hrender). apply IH.
    apply elem_of_cons in Hin as [-> | Hin]; [congruence | exact Hin].
  - rewrite (forEach_cons_throw _ _ _ _ Hrender). simpl.
    now rewrite (render_stage_throws_TypeError _ _ Hrender).
Qed.



Lemma prefix_complete (needle after : string) :
  String.prefix needle (needle +:+ after) = true.
Proof.
  induction needle as [|c needle IH]; [now destruct after |].
  rewrite append_cons. simpl. now destruct (ascii_dec c c).
Qed.


Lemma contains_complete (needle hay : string) :
  occurs_in needle hay -> contains needle hay = true.
Proof.
  intros (before & after & ->).
  induction before as [|c before IH].
  - rewrite append_empty_l.
    destruct (needle +:+ after) eqn:Heq; cbn [contains]; rewrite <- ?Heq;
      now rewrite prefix_complete.
  - rewrite append_cons. cbn [contains]. rewrite IH. apply orb_true_r.
Qed.




Example three_stage_names :
  map (fun stage => get_prop stage "name") (stages three_stage_generator)
  = [Normal (JStr "test"); Normal (JStr "build"); Normal (JStr "deploy-to-dev")].
Proof. reflexivity. Qed.

Lemma renderable_renders (stage : jsval) :
  renderable stage = true -> exists block, render_stage stage = Normal block.
Proof.
  unfold renderable. intros Hshape. apply andb_true_iff in Hshape as [Hshape Hconverts].
  destruct stage as [| | | | |elems|props]; try discriminate. simpl in Hshape.
  destruct (lookup_prop "steps" props) as [| | | | |[|[| | | | | |step] more]|] eqn:Hsteps;
    try discriminate.
  destruct (lookup_prop "image" step) as [| | | |image| |] eqn:Himage; try discriminate.
  destruct (lookup_prop "command" step) as [| | | | |tokens|] eqn:Hcommand;
    try discriminate.
  apply andb_true_iff in Hconverts as [Hname Htoken].
  apply converts_to_string in Hname as (title & Htitle).
  apply converts_to_string in Htoken as (script & Hscript).
  eexists.
  apply (render_stage_reads (JObj props) (lookup_prop "name" props)
           (JArr (JObj step :: more)) (JObj step) (JArr tokens)
           (nth 2 tokens JUndefined) image title script); simpl; congruence.
Qed.

Lemma no_steps_throws (props : list (string * jsval)) :
  lookup_prop "steps" props = JArr [] -> render_stage (JObj props) = Throw TypeError.
Proof.
  intros Hsteps. unfold render_stage. simpl.
  destruct (to_string (lookup_prop "name" props)) as [title | e] eqn:Htitle; simpl.
  - now rewrite Hsteps.
  - now rewrite (to_string_throws _ _ Htitle).
Qed.

Lemma unconvertible_name_throws (props : list (string * jsval)) :
  converts (lookup_prop "name" props) = false -> render_stage (JObj props) = Throw TypeError.
Proof.
  intros Hname. unfold render_stage. simpl.
  unfold converts in Hname. unfold to_string.
  now destruct (to_text (lookup_prop "name" props)).
Qed.

Lemma stage_throws_generate_throws (g : K8sPipelineGenerator) (stage : jsval) :
  stage ∈ stages g -> render_stage stage = Throw TypeError ->
  generateJenkinsfile g = Throw TypeError.
Proof.
  intros Hin Hbad. unfold generateJenkinsfile.
  pose proof (forEach_append_stage_throws (stages g)
                (jenkins_preamble g +:+ checkout_block)
                (ex_intro _ stage (conj Hin Hbad))) as Hthrow.
  destruct (forEach (stages g) append_stage (jenkins_preamble g +:+ checkout_block))
    as [[u | e] content]; simpl in Hthrow; congruence.
Qed.

Lemma short_command_reads_undefined (tokens : list jsval) :
  length tokens < 3 -> nth 2 tokens JUndefined = JUndefined.
Proof. intros Hshort. apply nth_overflow. lia. Qed.

(** C9. [generateJenkinsfile] returns a text whenever every stage has the
    shape it relies on and a name and third command token that convert
    to a string; [addStage] stores any value, and a stage whose [steps]
    is empty, or whose name does not convert to a string, makes the
    renderer throw a TypeError; a first step whose command has fewer
    than three tokens does not: [command[2]] reads [undefined], and the
    shell block of the stage holds the text "undefined". *)
Theorem generateJenkinsfile_shape_precondition (g : K8sPipelineGenerator) :
  (Forall (fun stage => renderable stage = true) (stages g) ->
   exists out, generateJenkinsfile g = Normal out)
  /\ (forall stage, addStage stage g = (Normal tt, set_stages g (stages g ++ [stage])))
  /\ (forall props,
        JObj props ∈ stages g ->
        lookup_prop "steps" props = JArr [] ->
        generateJenkinsfile g = Throw TypeError)
  /\ (forall props,
        JObj props ∈ stages g ->
        converts (lookup_prop "name" props) = false ->
        generateJenkinsfile g = Throw TypeError)
  /\ (forall props step more image tokens title,
        lookup_prop "steps" props = JArr (JObj step :: more) ->
        lookup_prop "image" step = JStr image ->
        lookup_prop "command" step = JArr tokens ->
        length tokens < 3 ->
        to_string (lookup_prop "name" props) = Normal title ->
        exists block,
          render_stage (JObj props) = Normal block
          /\ block = stage_block title (nth 0 (split_on colon image) EmptyString) "undefined"
          /\ block_shows title (nth 0 (split_on colon image) EmptyString) "undefined" block).
Proof.
  split; [| split; [| split; [| split]]].
  - intros Hshape.
    assert (Hblocks : exists blocks,
               Forall2 (fun stage block => render_stage stage = Normal block)
                       (stages g) blocks).
    { induction Hshape as [|stage sts Hstage _ (blocks & IH)].
      - exists []. constructor.
      - destruct (renderable_renders _ Hstage) as (block & Hblock).
        exists (block :: blocks). now constructor. }
    destruct Hblocks as (blocks & Hblocks).
    unfold generateJenkinsfile.
    rewrite (forEach_append_stage_blocks _ _ _ Hblocks). eauto.
  - intros stage. apply addStage_appends.
  - intros props Hin Hsteps.
    exact (stage_throws_generate_throws g _ Hin (no_steps_throws _ Hsteps)).
  - intros props Hin Hname.
    exact (stage_throws_generate_throws g _ Hin (unconvertible_name_throws _ Hname)).
  - intros props step more image tokens title Hsteps Himage Hcommand Hshort Htitle.
    eexists. split; [| split; [reflexivity | apply stage_block_shows]].
    apply (render_stage_reads (JObj props) (lookup_prop "name" props)
             (JArr (JObj step :: more)) (JObj step) (JArr tokens)
             (nth 2 tokens JUndefined) image title "undefined"); simpl; try congruence.
    now rewrite (short_command_reads_undefined _ Hshort).
Qed.

Lemma generateJenkinsfile_shape_precondition_witness :
  (exists out, generateJenkinsfile three_stage_generator = Normal out)
  /\ generateJenkinsfile (set_stages example_generator [plain_stage; no_steps_stage])
     = Throw TypeError
  /\ generateJenkinsfile (set_stages example_generator [plain_stage; toString_named_stage])
     = Throw TypeError
  /\ exists block,
      render_stage short_command_stage = Normal block
      /\ block = stage_block "lint" "node" "undefined"
      /\ block_shows "lint" "node" "undefined" block.
Proof.
  split; [| split; [| split]].
  - apply (generateJenkinsfile_shape_precondition three_stage_generator).
    vm_compute. repeat constructor.
  - destruct (generateJenkinsfile_shape_precondition
                (set_stages example_generator [plain_stage; no_steps_stage]))
      as (_ & _ & Hempty & _).
    apply (Hempty [("name", JStr "idle"); ("steps", JArr [])]).
    + vm_compute. apply list_elem_of_further, list_elem_of_here.
    + reflexivity.
  - destruct (generateJenkinsfile_shape_precondition
                (set_stages example_generator [plain_stage; toString_named_stage]))
      as (_ & _ & _ & Hname & _).
    apply (Hname [("name", JObj [("toString", JNum "1")]);
                  ("steps", JArr [JObj [("name", JStr "run-tests");
                                        ("image", JStr "node:14");
                                        ("command", JArr [JStr "sh"; JStr "-c";
                                                          JStr "npm test"])]])]).
    + vm_compute. apply list_elem_of_further, list_elem_of_here.
    + reflexivity.
  - destruct (generateJenkinsfile_shape_precondition example_generator)
      as (_ & _ & _ & _ & Hshort).
    apply (Hshort [("name", JStr "lint");
                   ("steps", JArr [JObj [("name", JStr "run-lint");
                                         ("image", JStr "node:14");
                                         ("command", JArr [JStr "sh"; JStr "-c"])]])]
                  [("name", JStr "run-lint"); ("image", JStr "node:14");
                   ("command", JArr [JStr "sh"; JStr "-c"])]
                  [] "node:14" [JStr "sh"; JStr "-c"] "lint"); try reflexivity.
    simpl. lia.
Defined.

(** A stage with a short command is rendered, not refused; and a stage
    of the relied-on shape is refused when its name is an object with an
    own [toString]. *)
Lemma short_command_is_rendered :
  well_shaped short_command_stage = false
  /\ generateJenkinsfile (set_stages example_generator [short_command_stage])
     = Normal (jenkins_preamble example_generator +:+ checkout_block
               +:+ stage_block "lint" "node" "undefined" +:+ jenkins_closing)
  /\ well_shaped toString_named_stage = true
  /\ generateJenkinsfile (set_stages example_generator [toString_named_stage])
     = Throw TypeError.
Proof. repeat split; reflexivity. Qed.

(** ** Repository identifier *)

Lemma match_literal_inv (w : string) (pat : list atom) (s rest : string) :
  match_here (literal w ++ pat) s = Some rest ->
  exists s', s = w +:+ s' /\ match_here pat s' = Some rest.
Proof.
  revert s. induction w as [|c w IH]; intros s Hmatch.
  - now exists s.
  - cbn [literal list_ascii_of_string map app match_here] in Hmatch.
    destruct s as [|c' s]; [discriminate |].
    destruct (Ascii.eqb_spec c' c) as [-> |]; [| discriminate].
    destruct (IH _ Hmatch) as (s' & -> & Hrest). now exists s'.
Qed.

Lemma match_star_empty (pat : list atom) :
  match_here (AnyStar :: pat) EmptyString = match_here pat EmptyString.
Proof. reflexivity. Qed.

Lemma match_star_cons (pat : list atom) (c : ascii) (s : string) :
  match_here (AnyStar :: pat) (String c s)
  = if line_terminator c then match_here pat (String c s)
    else match match_here (AnyStar :: pat) s with
         | Some rest => Some rest
         | None => match_here pat (String c s)
         end.
Proof. reflexivity. Qed.

Lemma match_star_inv (pat : list atom) (s rest : string) :
  match_here (AnyStar :: pat) s = Some rest ->
  exists before s', s = before +:+ s' /\ match_here pat s' = Some rest.
Proof.
  induction s as [|c s IH]; intros Hmatch.
  - rewrite match_star_empty in Hmatch. now exists "", "".
  - rewrite match_star_cons in Hmatch.
    destruct (line_terminator c); [now exists "", (String c s) |].
    destruct (match_here (AnyStar :: pat) s) as [rest' |] eqn:Hstar.
    + injection Hmatch as ->.
      destruct (IH eq_refl) as (before & s' & -> & Hrest).
      now exists (String c before), s'.
    + now exists "", (String c s).
Qed.

(** Whenever the replacement changes the URL, what it removed ends in
    [github], one more code unit, and [com/]. *)
Lemma fullRepositoryId_inv (url : string) :
  fullRepositoryId url = url
  \/ exists before c,
       url = before +:+ "github" +:+ String c "com/" +:+ fullRepositoryId url.
Proof.
  unfold fullRepositoryId, replace_anchored.
  destruct (match_here github_pattern url) as [rest |] eqn:Hmatch; [right | now left].
  unfold github_pattern in Hmatch.
  destruct (match_star_inv _ _ _ Hmatch) as (before & s1 & -> & H1).
  destruct (match_literal_inv "github" _ _ _ H1) as (s2 & -> & H2).
  cbn [match_here] in H2. destruct s2 as [|c s2]; [discriminate |].
  destruct (line_terminator c); [discriminate |].
  destruct (match_literal_inv "com/" [] _ _ H2) as (s3 & -> & H3).
  cbn [match_here] in H3. injection H3 as ->.
  now exists before, c.
Qed.

(** X20. A URL with no text of the form [github], one code unit, [com/]
    is returned as it is. *)
Lemma fullRepositoryId_unmodified (url : string) :
  (forall before c after, url <> before +:+ "github" +:+ String c "com/" +:+ after) ->
  fullRepositoryId url = url.
Proof.
  intros Hnone. destruct (fullRepositoryId_inv url) as [Hsame | (before & c & Hcut)].
  - exact Hsame.
  - now destruct (Hnone before c (fullRepositoryId url)).
Qed.

Lemma match_pattern_inv (s rest : string) :
  match_here (literal "github" ++ AnyChar :: literal "com/") s = Some rest ->
  exists c, s = "github" +:+ String c "com/" +:+ rest.
Proof.
  intros Hmatch.
  destruct (match_literal_inv "github" _ _ _ Hmatch) as (s2 & -> & H2).
  cbn [match_here] in H2. destruct s2 as [|c s2]; [discriminate |].
  destruct (line_terminator c); [discriminate |].
  destruct (match_literal_inv "com/" [] _ _ H2) as (s3 & -> & H3).
  cbn [match_here] in H3. injection H3 as ->. now exists c.
Qed.

(** If [tail] starts with a code unit that [w] does not have, a
    decomposition of [w +:+ rest] ending in [tail] puts [tail] in [rest]. *)
Lemma append_split_head (w rest before : string) (g : ascii) (tail : string) :
  ~ In g (list_ascii_of_string w) ->
  w +:+ rest = before +:+ String g tail ->
  exists before', before = w +:+ before' /\ rest = before' +:+ String g tail.
Proof.
  revert before. induction w as [|a w IH]; intros before Hfresh Heq.
  - now exists before.
  - destruct before as [|b before]; rewrite !append_cons in Heq.
    + rewrite append_empty_l in Heq. injection Heq as -> _.
      destruct Hfresh. now left.
    + injection Heq as -> Heq.
      destruct (IH before) as (before' & -> & Hrest); auto.
      * intros Hin. apply Hfresh. now right.
      * now exists before'.
Qed.

Lemma match_star_none (pat : list atom) (s : string) :
  (forall before s', s = before +:+ s' -> match_here pat s' = None) ->
  match_here (AnyStar :: pat) s = None.
Proof.
  induction s as [|c s IH]; intros Hnone.
  - rewrite match_star_empty. now apply (Hnone "").
  - rewrite match_star_cons, IH.
    + rewrite (Hnone "" (String c s) eq_refl). now destruct (line_terminator c).
    + intros before s' ->. now apply (Hnone (String c before)).
Qed.

Lemma match_star_extend (pat : list atom) (pre s rest : string) :
  (forall c, In c (list_ascii_of_string pre) -> line_terminator c = false) ->
  match_here (AnyStar :: pat) s = Some rest ->
  match_here (AnyStar :: pat) (pre +:+ s) = Some rest.
Proof.
  induction pre as [|c pre IH]; intros Hline Hmatch; [exact Hmatch |].
  rewrite append_cons, match_star_cons, (Hline c) by now left.
  rewrite IH; auto. intros c' Hin. apply Hline. now right.
Qed.

(** X21. On a URL whose text before [github.com/] has no line terminator
    and whose text after it has no further match, the replacement leaves
    what follows [github.com/]. *)
Lemma fullRepositoryId_github_prefix (pre rest : string) :
  (forall c, In c (list_ascii_of_string pre) -> line_terminator c = false) ->
  (forall before c after, rest <> before +:+ "github" +:+ String c "com/" +:+ after) ->
  fullRepositoryId (pre +:+ "github.com/" +:+ rest) = rest.
Proof.
  intros Hline Hnone. unfold fullRepositoryId, replace_anchored, github_pattern.
  rewrite (match_star_extend _ pre _ rest Hline); [reflexivity |].
  change ("github.com/" +:+ rest) with (String "g" ("ithub.com/" +:+ rest)).
  rewrite match_star_cons. change (line_terminator "g") with false. cbv iota.
  rewrite match_star_none; [reflexivity |].
  intros before s' Heq.
  destruct (match_here (literal "github" ++ AnyChar :: literal "com/") s')
    as [after |] eqn:Hmatch; [exfalso | reflexivity].
  destruct (match_pattern_inv _ _ Hmatch) as (c & ->).
  change ("github" +:+ String c "com/" +:+ after)
    with (String "g" ("ithub" +:+ String c "com/" +:+ after)) in Heq.
  assert (Hfresh : ~ In "g"%char (list_ascii_of_string "ithub.com/")).
  { simpl. intros Hin. repeat destruct Hin as [Hin | Hin]; try discriminate Hin.
    exact Hin. }
  destruct (append_split_head _ _ _ _ _ Hfresh Heq) as (before' & _ & Hrest).
  now apply (Hnone before' c after).
Qed.

(** C7. The pattern's dot is a wildcard: a URL that nowhere contains
    [github.com/] is still cut after [github-com/]. *)
Theorem fullRepositoryId_wildcard_dot :
  ~ occurs_in "github.com/" other_host_url
  /\ fullRepositoryId other_host_url = "owner/repo"
  /\ fullRepositoryId other_host_url <> other_host_url.
Proof.
  split; [| split].
  - intros Hoccurs. apply contains_complete in Hoccurs. vm_compute in Hoccurs.
    discriminate.
  - reflexivity.
  - vm_compute. discriminate.
Qed.

Example fullRepositoryId_github :
  fullRepositoryId "https://github.com/myorg/my-nodejs-app" = "myorg/my-nodejs-app"
  /\ fullRepositoryId "git@gitlab.com:owner/repo" = "git@gitlab.com:owner/repo".
Proof. split; reflexivity. Qed.

Section ArtifactProperties.
Context `{Externals} `{FileSystem}.

(** ** Cloud pipeline renderer *)

(** C2. The document of [generateAwsCodePipeline] has exactly three
    pipeline stages, named Source, Build and Deploy in this order, and
    it is the same document whatever [this.stages] holds. *)
Theorem generateAwsCodePipeline_three_stages
    (g : K8sPipelineGenerator) (stages1 stages2 : list jsval) :
  (exists source build deploy,
      at_path (generateAwsCodePipeline g) stages_path = Normal (JArr [source; build; deploy])
      /\ get_prop source "Name" = Normal (JStr "Source")
      /\ get_prop build "Name" = Normal (JStr "Build")
      /\ get_prop deploy "Name" = Normal (JStr "Deploy"))
  /\ generateAwsCodePipeline (set_stages g stages1)
     = generateAwsCodePipeline (set_stages g stages2).
Proof.
  split.
  - do 3 eexists. split; [reflexivity |]. repeat split; reflexivity.
  - reflexivity.
Qed.

(** ** Manifest renderer *)

Lemma placeholder_is_not_a_tagged_image (imageName tag : string) :
  "IMAGE_PLACEHOLDER" <> imageName +:+ ":" +:+ tag.
Proof.
  intros Heq.
  assert (Hoccurs : occurs_in ":" "IMAGE_PLACEHOLDER") by now exists imageName, tag.
  apply contains_complete in Hoccurs. vm_compute in Hoccurs. discriminate.
Qed.

(** C6. The document serialized by [generateK8sDeployment] has one
    container, whose image is the placeholder token (never a text of the
    form name:tag) and whose resource requests are the [resources]
    argument, for every supplied [resources]. *)
Theorem generateK8sDeployment_placeholder_and_requests
    (g : K8sPipelineGenerator) (imageName tag resources : jsval) :
  resources <> JUndefined ->
  generateK8sDeployment g imageName tag resources
  = yaml_dump (k8sDeployment g imageName tag resources)
  /\ exists container,
      at_path (k8sDeployment g imageName tag resources) containers_path
      = Normal (JArr [container])
      /\ get_prop container "image" = Normal (JStr "IMAGE_PLACEHOLDER")
      /\ at_path container [Key "resources"; Key "requests"] = Normal resources
      /\ forall name label : string, JStr "IMAGE_PLACEHOLDER" <> JStr (name +:+ ":" +:+ label).
Proof.
  intros Hsupplied. split; [reflexivity |].
  eexists. split; [reflexivity |]. split; [reflexivity |]. split.
  - simpl. now destruct resources.
  - intros name label Heq. injection Heq as Heq.
    exact (placeholder_is_not_a_tagged_image _ _ Heq).
Qed.

(** ** Output writer *)

Lemma forEach_map {S A B} (f : A -> B) (xs : list A) (body : B -> eff S unit) :
  forEach (map f xs) body = forEach xs (fun x => body (f x)).
Proof. induction xs as [|x xs IH]; [reflexivity |]. simpl. now rewrite IH. Qed.

(** The two writes of the second loop, as writes of a list. *)
Lemma forEach_save_manifests_write_all
    (g : K8sPipelineGenerator) (k8sDir : string) (envs : list string) (fs : filesystem) :
  forEach envs (save_manifests g k8sDir) fs
  = write_all (manifest_writes g k8sDir envs) fs.
Proof.
  revert fs. induction envs as [|env envs IH]; intros fs; [reflexivity |].
  unfold write_all in *. cbn [forEach manifest_writes flat_map app fst snd].
  unfold save_manifests at 1. unfold bind.
  destruct (writeFileSync _ _ fs) as [[[] | e] fs1]; [| reflexivity].
  destruct (writeFileSync _ _ fs1) as [[[] | e] fs2]; [| reflexivity].
  apply IH.
Qed.

(** [saveToFiles] in three phases: the directories, the Jenkinsfile, the
    writes.  A phase that throws ends the call. *)
Lemma saveToFiles_phases
    (g : K8sPipelineGenerator) (outputDir : option string) (fs : filesystem) :
  let dir := default_arg "./pipeline" outputDir in
  saveToFiles g outputDir fs
  = match forEach (wanted_directories g dir) ensure_dir fs with
    | (Throw e, fs1) => (Throw e, fs1)
    | (Normal _, fs1) =>
        match generateJenkinsfile g with
        | Throw e => (Throw e, fs1)
        | Normal jenkinsfile =>
            match write_all (all_writes g dir jenkinsfile) fs1 with
            | (Throw e, fs2) => (Throw e, fs2)
            | (Normal _, fs2) => (Normal (returned_paths dir), fs2)
            end
        end
    end.
Proof.
  intros dir. unfold saveToFiles, wanted_directories. cbv zeta. fold dir.
  cbn [forEach]. rewrite forEach_map. unfold bind, lift_c.
  destruct (ensure_dir dir fs) as [[[] | e] fs1]; [| reflexivity].
  destruct (ensure_dir (path_join dir "k8s") fs1) as [[[] | e] fs2]; [| reflexivity].
  destruct (forEach (environments g) _ fs2) as [[[] | e] fs3]; [| reflexivity].
  destruct (generateJenkinsfile g) as [jenkinsfile | e]; [| reflexivity].
  unfold all_writes, write_all, top_level_writes. cbn [app forEach fst snd]. unfold bind.
  destruct (writeFileSync _ _ fs3) as [[[] | e] fs4]; [| reflexivity].
  destruct (writeFileSync _ _ fs4) as [[[] | e] fs5]; [| reflexivity].
  destruct (writeFileSync _ _ fs5) as [[[] | e] fs6]; [| reflexivity].
  destruct (writeFileSync _ _ fs6) as [[[] | e] fs7]; [| reflexivity].
  rewrite forEach_save_manifests_write_all. unfold write_all.
  destruct (forEach _ _ fs7) as [[[] | e] fs8]; reflexivity.
Qed.

Lemma writeFileSync_run (p data : string) (fs : filesystem) :
  writeFileSync p data fs
  = (outcome (fst (fs_writeFileSync p data (disk_of fs))),
     mkFs (snd (fs_writeFileSync p data (disk_of fs))) (made fs) (written fs ++ [(p, data)])).
Proof. reflexivity. Qed.

Lemma ensure_dir_run (p : string) (fs : filesystem) :
  ensure_dir p fs
  = if fs_existsSync p (disk_of fs) then (Normal tt, fs)
    else (outcome (fst (fs_mkdirSync p true (disk_of fs))),
          mkFs (snd (fs_mkdirSync p true (disk_of fs))) (made fs ++ [p]) (written fs)).
Proof.
  unfold ensure_dir, bind, existsSync. now destruct (fs_existsSync p (disk_of fs)).
Qed.

(** The directory phase writes no file, and calls [mkdirSync] on some of
    the paths it is given, in their order; when it throws, the error is
    that of its last [mkdirSync], on a path that did not exist. *)
Lemma forEach_ensure_dir_calls (paths : list string) (fs : filesystem) :
  written (snd (forEach paths ensure_dir fs)) = written fs
  /\ exists dirs,
      made (snd (forEach paths ensure_dir fs)) = made fs ++ dirs
      /\ sublist dirs paths
      /\ forall e, fst (forEach paths ensure_dir fs) = Throw e ->
           exists earlier p d,
             dirs = earlier ++ [p]
             /\ fs_existsSync p d = false
             /\ fst (fs_mkdirSync p true d) = Some e.
Proof.
  revert fs. induction paths as [|p paths IH]; intros fs.
  - split; [reflexivity |]. exists []. rewrite app_nil_r.
    split; [reflexivity |]. split; [constructor | discriminate].
  - cbn [forEach]. unfold bind. rewrite ensure_dir_run.
    destruct (fs_existsSync p (disk_of fs)) eqn:Hexists.
    + destruct (IH fs) as (Hwritten & dirs & Hmade & Hsub & Hthrow).
      split; [exact Hwritten |]. exists dirs.
      split; [exact Hmade |]. split; [now constructor | exact Hthrow].
    + destruct (fs_mkdirSync p true (disk_of fs)) as [[e |] after] eqn:Hmkdir;
        cbn [outcome fst snd].
      * split; [reflexivity |]. exists [p]. split; [reflexivity |].
        split; [constructor; apply sublist_nil_l |].
        intros e' [= <-]. exists [], p, (disk_of fs).
        split; [reflexivity |]. split; [exact Hexists | now rewrite Hmkdir].
      * destruct (IH (mkFs after (made fs ++ [p]) (written fs)))
          as (Hwritten & dirs & Hmade & Hsub & Hthrow).
        cbn [made written] in Hwritten, Hmade.
        split; [exact Hwritten |]. exists (p :: dirs).
        split; [now rewrite Hmade, <- app_assoc |]. split; [now constructor |].
        intros e He. destruct (Hthrow e He) as (earlier & q & d & -> & Hq).
        exists (p :: earlier), q, d. split; [reflexivity | exact Hq].
Qed.

(** The write phase makes no directory, and makes the writes it is given
    in order up to the first that fails. *)
Lemma write_all_calls (writes : list (string * string)) (fs : filesystem) :
  made (snd (write_all writes fs)) = made fs
  /\ exists done,
      written (snd (write_all writes fs)) = written fs ++ done
      /\ done `prefix_of` writes
      /\ (forall u, fst (write_all writes fs) = Normal u -> done = writes)
      /\ forall e, fst (write_all writes fs) = Throw e ->
           exists earlier p data d,
             done = earlier ++ [(p, data)]
             /\ fst (fs_writeFileSync p data d) = Some e.
Proof.
  unfold write_all. revert fs. induction writes as [|[p data] writes IH]; intros fs.
  - split; [reflexivity |]. exists []. rewrite app_nil_r.
    split; [reflexivity |]. split; [reflexivity |]. split; [reflexivity | discriminate].
  - cbn [forEach fst snd]. unfold bind. rewrite writeFileSync_run.
    destruct (fs_writeFileSync p data (disk_of fs)) as [[e |] after] eqn:Hwrite;
      cbn [outcome fst snd].
    + split; [reflexivity |]. exists [(p, data)]. split; [reflexivity |].
      split; [now exists writes |]. split; [discriminate |].
      intros e' [= <-]. exists [], p, data, (disk_of fs).
      split; [reflexivity | now rewrite Hwrite].
    + destruct (IH (mkFs after (made fs) (written fs ++ [(p, data)])))
        as (Hmade & done & Hwritten & Hprefix & Hall & Hthrow).
      cbn [made written] in Hmade, Hwritten.
      split; [exact Hmade |]. exists ((p, data) :: done).
      split; [now rewrite Hwritten, <- app_assoc |].
      split; [now apply prefix_cons |]. split.
      * intros u Hu. now rewrite (Hall u Hu).
      * intros e He. destruct (Hthrow e He) as (earlier & q & text & d & -> & Hq).
        exists ((p, data) :: earlier), q, text, d. split; [reflexivity | exact Hq].
Qed.

(** What a call of [saveToFiles] that returns has done. *)
Lemma saveToFiles_returned
    (g : K8sPipelineGenerator) (outputDir : option string) (fs fs' : filesystem)
    (returned : jsval) :
  saveToFiles g outputDir fs = (Normal returned, fs') ->
  let dir := default_arg "./pipeline" outputDir in
  returned = returned_paths dir
  /\ exists jenkinsfile,
      generateJenkinsfile g = Normal jenkinsfile
      /\ written fs' = written fs ++ all_writes g dir jenkinsfile.
Proof.
  intros Hrun dir. rewrite saveToFiles_phases in Hrun. fold dir in Hrun.
  pose proof (forEach_ensure_dir_calls (wanted_directories g dir) fs) as (Hkept & _).
  destruct (forEach (wanted_directories g dir) ensure_dir fs) as [[[] | e] fs1];
    [| discriminate].
  destruct (generateJenkinsfile g) as [jenkinsfile | e]; [| discriminate].
  pose proof (write_all_calls (all_writes g dir jenkinsfile) fs1)
    as (_ & done & Hwritten & _ & Hall & _).
  destruct (write_all (all_writes g dir jenkinsfile) fs1) as [[[] | e] fs2];
    [| discriminate].
  injection Hrun as <- <-. split; [reflexivity |]. exists jenkinsfile.
  split; [reflexivity |]. cbn [fst snd] in *.
  now rewrite Hwritten, (Hall tt eq_refl), Hkept.
Qed.

Lemma written_paths_all_writes (g : K8sPipelineGenerator) (dir jenkinsfile : string) :
  map fst (all_writes g dir jenkinsfile) = written_paths g dir.
Proof.
  unfold all_writes, written_paths. rewrite map_app. f_equal.
  unfold manifest_writes. induction (environments g) as [|env envs IH]; [reflexivity |].
  simpl. now rewrite IH.
Qed.



End ArtifactProperties.

(** ** The properties on concrete runs *)

Lemma list_ascii_of_string_append (a b : string) :
  list_ascii_of_string (a +:+ b) = list_ascii_of_string a ++ list_ascii_of_string b.
Proof.
  induction a as [|c a IH]; [reflexivity |].
  rewrite append_cons. simpl. now rewrite IH.
Qed.

Lemma generateK8sDeployment_placeholder_and_requests_witness :
  let resources := JObj [("cpu", JStr "100m"); ("memory", JStr "128Mi")] in
  @generateK8sDeployment stand_ins example_generator (JStr "svc") (JStr "v2") resources
  = flow_dump (k8sDeployment example_generator (JStr "svc") (JStr "v2") resources)
  /\ exists container,
      at_path (k8sDeployment example_generator (JStr "svc") (JStr "v2") resources)
              containers_path
      = Normal (JArr [container])
      /\ get_prop container "image" = Normal (JStr "IMAGE_PLACEHOLDER")
      /\ at_path container [Key "resources"; Key "requests"] = Normal resources
      /\ forall name label : string, JStr "IMAGE_PLACEHOLDER" <> JStr (name +:+ ":" +:+ label).
Proof.
  apply (@generateK8sDeployment_placeholder_and_requests stand_ins example_generator
           (JStr "svc") (JStr "v2")).
  discriminate.
Defined.




(** * Further properties *)

(** ** Constructor *)

Lemma or_else_nonempty (field : option string) (fallback : string) :
  fallback <> EmptyString -> or_else field fallback <> EmptyString.
Proof. intros Hfallback. destruct field as [[|c s]|]; simpl; auto; discriminate. Qed.

(** X1. Whatever the options, a new generator has no stage, knows the
    environments dev, staging and prod, and has a non-empty project name,
    branch, namespace and Dockerfile path (an empty string in the options
    is replaced by the default like a missing one); when no registry is
    given the repository is named after the project name in force; and
    [addDeployStage] succeeds on it exactly for dev, staging and prod. *)
Theorem constructor_defaults (options : Options) (environment : string)
    (resources : option jsval) :
  let g := constructor options in
  stages g = []
  /\ environments g = ["dev"; "staging"; "prod"]
  /\ projectName g <> EmptyString
  /\ branch g <> EmptyString
  /\ namespace g <> EmptyString
  /\ dockerfilePath g <> EmptyString
  /\ projectName g = or_else (opt_projectName options) "k8s-app"
  /\ ecrRepository (registry_aws g)
     = match opt_registry options with
       | Some given => ecrRepository given
       | None => projectName g +:+ "-repo"
       end
  /\ (fst (addDeployStage (Some environment) resources g) = Normal tt
      <-> environment ∈ ["dev"; "staging"; "prod"]).
Proof.
  intros g. repeat split; try (apply or_else_nonempty; discriminate).
  - subst g. simpl. now destruct (opt_registry options).
  - unfold addDeployStage, bind, get. simpl.
    destruct (bool_decide (environment ∈ ["dev"; "staging"; "prod"])) eqn:Hknown.
    + intros _. now apply bool_decide_eq_true in Hknown.
    + discriminate.
  - intros Hknown. unfold addDeployStage, bind, get. simpl.
    now rewrite bool_decide_eq_true_2.
Qed.

(** ** Chains of add-operations *)

Lemma set_stages_same (g : K8sPipelineGenerator) : set_stages g (stages g ++ []) = g.
Proof. destruct g. unfold set_stages. simpl. now rewrite app_nil_r. Qed.

Lemma set_stages_twice (g : K8sPipelineGenerator) (first second : list jsval) :
  set_stages (set_stages g (stages g ++ first))
             (stages (set_stages g (stages g ++ first)) ++ second)
  = set_stages g (stages g ++ first ++ second).
Proof. unfold set_stages. simpl. now rewrite app_assoc. Qed.

Lemma run_call_appends (call : add_call) (g : K8sPipelineGenerator) :
  (exists stage, run_call call g = (Normal tt, set_stages g (stages g ++ [stage]))
                 /\ (builds_its_stage call = true -> renderable stage = true))
  \/ (exists message, run_call call g = (Throw (Error message), g)).
Proof.
  destruct call as [stage | command image | buildCommand image | imageName tag
                   | environment resources]; simpl.
  - left. exists stage. split; [reflexivity | discriminate].
  - left. eexists. split; reflexivity.
  - left. eexists. split; reflexivity.
  - left. unfold addDockerBuildStage, bind, get. cbv beta iota zeta.
    eexists. split; reflexivity.
  - unfold addDeployStage, bind, get. cbv beta iota zeta.
    destruct (bool_decide (default_arg "dev" environment ∈ environments g)).
    + left. eexists. split; reflexivity.
    + right. eexists. reflexivity.
Qed.

Lemma chain_cons_normal (call : add_call) (calls : list add_call)
    (g g' : K8sPipelineGenerator) :
  run_call call g = (Normal tt, g') -> chain (call :: calls) g = chain calls g'.
Proof. intros Hcall. unfold chain. simpl. unfold bind. now rewrite Hcall. Qed.

Lemma chain_cons_throw (call : add_call) (calls : list add_call)
    (g g' : K8sPipelineGenerator) (e : js_error) :
  run_call call g = (Throw e, g') -> chain (call :: calls) g = (Throw e, g').
Proof. intros Hcall. unfold chain. simpl. unfold bind. now rewrite Hcall. Qed.

(** X2. A chain of add-operations only appends: the generator it leaves
    differs from the one it started on by stages added at the end, one
    per call when the chain completes and fewer when it throws; the only
    thing a chain throws is the [Error] of [addDeployStage], and the
    stages added before the throw stay. *)
Theorem chain_appends_only (calls : list add_call) (g : K8sPipelineGenerator) :
  exists added,
    snd (chain calls g) = set_stages g (stages g ++ added)
    /\ (fst (chain calls g) = Normal tt /\ length added = length calls
        \/ exists message,
             fst (chain calls g) = Throw (Error message)
             /\ length added < length calls).
Proof.
  revert g. induction calls as [|call calls IH]; intros g.
  - exists []. split; [symmetry; apply set_stages_same | left; auto].
  - destruct (run_call_appends call g) as [(stage & Hcall & _) | (message & Hcall)].
    + rewrite (chain_cons_normal _ _ _ _ Hcall).
      destruct (IH (set_stages g (stages g ++ [stage]))) as (added & Hstate & Hresult).
      exists (stage :: added). split.
      * rewrite Hstate. apply (set_stages_twice g [stage] added).
      * destruct Hresult as [(Hok & Hlen) | (message & Hthrow & Hlen)].
        -- left. split; [exact Hok | simpl; lia].
        -- right. exists message. split; [exact Hthrow | simpl; lia].
    + rewrite (chain_cons_throw _ _ _ _ _ Hcall).
      exists []. split; [symmetry; apply set_stages_same |].
      right. exists message. split; [reflexivity | simpl; lia].
Qed.

Lemma renderable_generates (g : K8sPipelineGenerator) :
  Forall (fun stage => renderable stage = true) (stages g) ->
  exists out, generateJenkinsfile g = Normal out.
Proof.
  intros Hshape.
  assert (Hblocks : exists blocks,
             Forall2 (fun stage block => render_stage stage = Normal block)
                     (stages g) blocks).
  { induction Hshape as [|stage sts Hstage _ (blocks & IH)].
    - exists []. constructor.
    - destruct (renderable_renders _ Hstage) as (block & Hblock).
      exists (block :: blocks). now constructor. }
  destruct Hblocks as (blocks & Hblocks).
  unfold generateJenkinsfile.
  rewrite (forEach_append_stage_blocks _ _ _ Hblocks). eauto.
Qed.

(** X3. The stages built by [addTestStage], [addBuildStage],
    [addDockerBuildStage] and [addDeployStage] all have the shape the
    Jenkins renderer relies on, with a string name and a string command:
    a chain of such calls on a generator whose stages are renderable
    leaves one whose stages are, whether the chain completes or throws,
    and [generateJenkinsfile] returns a text on it. *)
Theorem chain_of_builders_renders (calls : list add_call) (g : K8sPipelineGenerator) :
  forallb builds_its_stage calls = true ->
  Forall (fun stage => renderable stage = true) (stages g) ->
  Forall (fun stage => renderable stage = true) (stages (snd (chain calls g)))
  /\ exists out, generateJenkinsfile (snd (chain calls g)) = Normal out.
Proof.
  intros Hcalls Hshape.
  assert (Hkept : Forall (fun stage => renderable stage = true)
                         (stages (snd (chain calls g)))).
  { revert g Hshape. induction calls as [|call calls IH]; intros g Hshape; [exact Hshape |].
    simpl in Hcalls. apply andb_true_iff in Hcalls as [Hcall Hrest].
    destruct (run_call_appends call g) as [(stage & Hrun & Hstage) | (message & Hrun)].
    - rewrite (chain_cons_normal _ _ _ _ Hrun). apply (IH Hrest). simpl.
      apply Forall_app. split; [exact Hshape |]. constructor; [auto | constructor].
    - now rewrite (chain_cons_throw _ _ _ _ _ Hrun). }
  split; [exact Hkept | now apply renderable_generates].
Qed.

Lemma chain_of_builders_renders_witness :
  Forall (fun stage => renderable stage = true)
         (stages (snd (chain example_calls example_generator)))
  /\ exists out, generateJenkinsfile (snd (chain example_calls example_generator)) = Normal out.
Proof.
  apply (chain_of_builders_renders example_calls example_generator).
  - reflexivity.
  - vm_compute. constructor.
Defined.

(** ** The blocks of the built-in stages *)

(** X4. The stage of [addTestStage] renders to a block titled [test] and
    that of [addBuildStage] to one titled [build]; the block names the
    container after the image before its first colon and its shell block
    holds the command as given; with no arguments these are [node] with
    [npm test], and [node] with [npm run build]. *)
Theorem test_and_build_stage_blocks
    (command buildCommand image : option string) (g : K8sPipelineGenerator) :
  let container := nth 0 (split_on colon (default_arg "node:14" image)) EmptyString in
  exists test build testBlock buildBlock,
    addTestStage command image g = (Normal tt, set_stages g (stages g ++ [test]))
    /\ addBuildStage buildCommand image g = (Normal tt, set_stages g (stages g ++ [build]))
    /\ render_stage test = Normal testBlock
    /\ block_shows "test" container (default_arg "npm test" command) testBlock
    /\ render_stage build = Normal buildBlock
    /\ block_shows "build" container (default_arg "npm run build" buildCommand) buildBlock
    /\ nth 0 (split_on colon (default_arg "node:14" None)) EmptyString = "node".
Proof.
  intros container. do 4 eexists. split; [reflexivity |]. split; [reflexivity |].
  split; [| split; [| split; [| split; [| reflexivity]]]].
  - eapply (render_stage_reads _ (JStr "test") _ _ _
              (JStr (default_arg "npm test" command))); reflexivity.
  - apply stage_block_shows.
  - eapply (render_stage_reads _ (JStr "build") _ _ _
              (JStr (default_arg "npm run build" buildCommand))); reflexivity.
  - apply stage_block_shows.
Qed.

(** X5. The stage of [addDockerBuildStage] renders to a block titled
    [docker-build] that names the container [docker] and whose shell
    block builds and pushes one and the same reference
    [<dockerRegistry>/<imageName>:<tag>] (tag [latest] when omitted) with
    the configured Dockerfile; its DOCKER_HOST variable is in the [env]
    of the step. *)
Theorem docker_build_stage_block
    (imageName : string) (tag : option string) (g : K8sPipelineGenerator) :
  let reference :=
    dockerRegistry g +:+ "/" +:+ imageName +:+ ":" +:+ default_arg "latest" tag in
  exists stage block,
    addDockerBuildStage imageName tag g = (Normal tt, set_stages g (stages g ++ [stage]))
    /\ render_stage stage = Normal block
    /\ block_shows "docker-build" "docker"
         ("docker build -t " +:+ reference +:+ " -f " +:+ dockerfilePath g
          +:+ " . && docker push " +:+ reference) block
    /\ at_path stage [Key "steps"; Idx 0; Key "env"]
       = Normal (JArr [JObj [("name", JStr "DOCKER_HOST");
                             ("value", JStr "tcp://localhost:2375")]])
    /\ get_prop stage "env" = Normal JUndefined.
Proof.
  intros reference. unfold addDockerBuildStage, bind, get. cbv beta iota zeta.
  do 2 eexists. split; [reflexivity |].
  split; [| split; [apply stage_block_shows | split; reflexivity]].
  eapply (render_stage_reads _ (JStr "docker-build") _ _ _ (JStr _) "docker:20.10.12-dind");
    reflexivity.
Qed.



(** ** When the Jenkins renderer returns *)

Lemma readable_renders (stage : jsval) :
  readable stage = true <-> exists block, render_stage stage = Normal block.
Proof.
  split.
  - unfold readable. intros Hreadable.
    destruct (get_prop stage "name") as [name |] eqn:Hname; [| discriminate].
    destruct (get_prop stage "steps") as [steps |] eqn:Hsteps; [| discriminate].
    destruct (get_index steps 0) as [step |] eqn:Hstep; [| discriminate].
    destruct (get_prop step "image") as [[| | | | image | |] |] eqn:Himage;
      try discriminate.
    destruct (get_prop step "command") as [command |] eqn:Hcommand; [| discriminate].
    destruct (get_index command 2) as [token |] eqn:Htoken; [| discriminate].
    apply andb_true_iff in Hreadable as [Hconverts Hconverts'].
    apply converts_to_string in Hconverts as (title & Htitle).
    apply converts_to_string in Hconverts' as (script & Hscript).
    eexists.
    exact (render_stage_reads _ _ _ _ _ _ _ _ _
             Hname Htitle Hsteps Hstep Himage Hcommand Htoken Hscript).
  - intros (block & Hrender). unfold render_stage in Hrender. unfold readable.
    destruct (get_prop stage "name") as [name |]; [| discriminate]. simpl in Hrender.
    destruct (to_string name) as [title |] eqn:Htitle; [| discriminate]. simpl in Hrender.
    destruct (get_prop stage "steps") as [steps |]; [| discriminate]. simpl in Hrender.
    destruct (get_index steps 0) as [step |]; [| discriminate]. simpl in Hrender.
    destruct (get_prop step "image") as [[| | | | image | |] |]; try discriminate.
    simpl in Hrender.
    destruct (to_string _) as [container |] in Hrender; [| discriminate]. simpl in Hrender.
    destruct (get_prop step "command") as [command |]; [| discriminate]. simpl in Hrender.
    destruct (get_index command 2) as [token |]; [| discriminate]. simpl in Hrender.
    destruct (to_string token) as [script |] eqn:Hscript; [| discriminate].
    apply andb_true_iff. split; apply converts_to_string; eauto.
Qed.

Lemma readable_all_blocks (sts : list jsval) :
  forallb readable sts = true ->
  exists blocks, Forall2 (fun stage block => render_stage stage = Normal block) sts blocks.
Proof.
  induction sts as [|stage sts IH]; intros Hall.
  - exists []. constructor.
  - simpl in Hall. apply andb_true_iff in Hall as [Hhere Hlater].
    destruct (IH Hlater) as (blocks & Hblocks).
    destruct (proj1 (readable_renders stage) Hhere) as (block & Hblock).
    exists (block :: blocks). now constructor.
Qed.

Lemma unreadable_some_throws (sts : list jsval) :
  forallb readable sts = false ->
  exists stage, stage ∈ sts /\ render_stage stage = Throw TypeError.
Proof.
  induction sts as [|stage sts IH]; intros Hnot; [discriminate |].
  simpl in Hnot. apply andb_false_iff in Hnot as [Hhere | Hlater].
  - exists stage. split; [apply list_elem_of_here |].
    destruct (render_stage stage) as [block | e] eqn:Hrender.
    + rewrite (proj2 (readable_renders stage)) in Hhere; [discriminate | eauto].
    + now rewrite (render_stage_throws_TypeError _ _ Hrender).
  - destruct (IH Hlater) as (bad & Hin & Hthrow).
    exists bad. split; [now apply list_elem_of_further | exact Hthrow].
Qed.

(** X7. [generateJenkinsfile] returns a text exactly when every stage is
    readable (it has a first step whose [image] is a string and whose
    [command] is neither [undefined] nor [null], and its name and the
    token at index 2 of that command convert to a string); otherwise it
    throws, and what it throws is a TypeError. *)
Theorem generateJenkinsfile_returns_iff_readable (g : K8sPipelineGenerator) :
  ((exists out, generateJenkinsfile g = Normal out)
   <-> forallb readable (stages g) = true)
  /\ (generateJenkinsfile g = Throw TypeError
      <-> forallb readable (stages g) = false).
Proof.
  assert (Hsome : forallb readable (stages g) = true ->
                  exists out, generateJenkinsfile g = Normal out).
  { intros Hall. destruct (readable_all_blocks _ Hall) as (blocks & Hblocks).
    unfold generateJenkinsfile.
    rewrite (forEach_append_stage_blocks _ _ _ Hblocks). eauto. }
  assert (Hnone : forallb readable (stages g) = false ->
                  generateJenkinsfile g = Throw TypeError).
  { intros Hnot.
    pose proof (forEach_append_stage_throws (stages g)
                  (jenkins_preamble g +:+ checkout_block)
                  (unreadable_some_throws _ Hnot)) as Hthrow.
    unfold generateJenkinsfile.
    destruct (forEach (stages g) append_stage (jenkins_preamble g +:+ checkout_block))
      as [[u | e] content]; simpl in Hthrow; congruence. }
  split; split; auto.
  - intros (out & Hout).
    destruct (forallb readable (stages g)) eqn:Hall; [reflexivity |].
    rewrite (Hnone eq_refl) in Hout. discriminate.
  - intros Hthrow.
    destruct (forallb readable (stages g)) eqn:Hall; [| reflexivity].
    destruct (Hsome eq_refl) as (out & Hout). congruence.
Qed.

(** ** What a stage contributes to the Jenkinsfile *)

Lemma occurs_in_trans (a b c : string) : occurs_in a b -> occurs_in b c -> occurs_in a c.
Proof.
  intros (before & after & ->) (before' & after' & ->).
  exists (before' +:+ before), (after +:+ after'). now rewrite !append_assoc.
Qed.

Lemma concat_blocks_app (first second : list string) :
  concat_blocks (first ++ second) = concat_blocks first +:+ concat_blocks second.
Proof.
  induction first as [|block first IH]; [reflexivity |].
  simpl. unfold concat_blocks in *. simpl. now rewrite IH, append_assoc.
Qed.

Lemma occurs_in_concat_blocks (block : string) (blocks : list string) :
  block ∈ blocks -> occurs_in block (concat_blocks blocks).
Proof.
  intros Hin. apply list_elem_of_split in Hin as (first & second & ->).
  rewrite concat_blocks_app. apply occurs_in_prepend.
  change (concat_blocks (block :: second)) with (block +:+ concat_blocks second).
  apply occurs_in_append, occurs_in_refl.
Qed.

Lemma shell_block_in_stage_block (name container script : string) :
  occurs_in ("          sh " +:+ triple_quote +:+ nl +:+ "            " +:+ script +:+ nl
             +:+ "          " +:+ triple_quote)
            (stage_block name container script).
Proof.
  exists (nl +:+ "    stage('" +:+ name +:+ "') {" +:+ nl +:+ "      steps {" +:+ nl
          +:+ "        container('" +:+ container +:+ "') {" +:+ nl),
         (nl +:+ "        }" +:+ nl +:+ "      }" +:+ nl +:+ "    }" +:+ nl +:+ "").
  unfold stage_block, text, join, triple_quote. cbn [String.concat].
  rewrite append_empty_l, !append_assoc. reflexivity.
Qed.

Lemma render_stage_script (stage steps step command : jsval) (script block : string) :
  render_stage stage = Normal block ->
  get_prop stage "steps" = Normal steps ->
  get_index steps 0 = Normal step ->
  get_prop step "command" = Normal command ->
  get_index command 2 = Normal (JStr script) ->
  exists name container, block = stage_block name container script.
Proof.
  unfold render_stage. intros Hrender Hsteps Hstep Hcommand Htoken.
  destruct (get_prop stage "name") as [name |]; [| discriminate]. simpl in Hrender.
  destruct (to_string name) as [title |]; [| discriminate]. simpl in Hrender.
  rewrite Hsteps in Hrender. simpl in Hrender.
  rewrite Hstep in Hrender. simpl in Hrender.
  destruct (get_prop step "image") as [image |]; [| discriminate]. simpl in Hrender.
  destruct (call_split image colon) as [parts |]; [| discriminate]. simpl in Hrender.
  destruct (get_index parts 0) as [first |]; [| discriminate]. simpl in Hrender.
  destruct (to_string first) as [container |]; [| discriminate]. simpl in Hrender.
  rewrite Hcommand in Hrender. simpl in Hrender.
  rewrite Htoken in Hrender. simpl in Hrender.
  injection Hrender as <-. eauto.
Qed.

(** X8. The command of a stage reaches the Jenkinsfile unescaped: when
    the token at index 2 of the first step's command is a string, the
    text returned holds that string, as it is, between the two
    triple-quote lines of a shell block (also when the string itself
    holds a triple quote). *)
Theorem script_embedded_verbatim
    (g : K8sPipelineGenerator) (out : string) (stage steps step command : jsval)
    (script : string) :
  generateJenkinsfile g = Normal out ->
  stage ∈ stages g ->
  get_prop stage "steps" = Normal steps ->
  get_index steps 0 = Normal step ->
  get_prop step "command" = Normal command ->
  get_index command 2 = Normal (JStr script) ->
  occurs_in ("          sh " +:+ triple_quote +:+ nl +:+ "            " +:+ script +:+ nl
             +:+ "          " +:+ triple_quote) out.
Proof.
  unfold generateJenkinsfile. intros Hout Hin Hsteps Hstep Hcommand Htoken.
  destruct (forEach (stages g) append_stage (jenkins_preamble g +:+ checkout_block))
    as [[u | e] content] eqn:Hloop; [| discriminate].
  injection Hout as <-.
  destruct (forEach_append_stage_inv _ _ _ _ Hloop) as (blocks & Hall & ->).
  apply list_elem_of_lookup in Hin as (i & Hi).
  destruct (Forall2_lookup_l _ _ _ _ _ Hall Hi) as (block & Hblock & Hrender).
  destruct (render_stage_script _ _ _ _ _ _ Hrender Hsteps Hstep Hcommand Htoken)
    as (name & container & ->).
  apply occurs_in_append, occurs_in_prepend.
  eapply occurs_in_trans; [apply shell_block_in_stage_block |].
  apply occurs_in_concat_blocks. eapply list_elem_of_lookup_2, Hblock.
Qed.

(** A stage whose command closes the shell block itself. *)
Lemma script_embedded_verbatim_witness :
  let script := "echo " +:+ triple_quote +:+ " ; rm -rf /" in
  let stage :=
    JObj [("name", JStr "x");
          ("steps", JArr [JObj [("image", JStr "alpine"); ("command", sh_c script)]])] in
  exists out,
    generateJenkinsfile (set_stages example_generator [stage]) = Normal out
    /\ occurs_in ("          sh " +:+ triple_quote +:+ nl +:+ "            " +:+ script +:+ nl
                  +:+ "          " +:+ triple_quote) out.
Proof.
  intros script stage. eexists. split; [vm_compute; reflexivity |].
  eapply (script_embedded_verbatim (set_stages example_generator [stage]) _ stage
            (JArr [JObj [("image", JStr "alpine"); ("command", sh_c script)]])
            (JObj [("image", JStr "alpine"); ("command", sh_c script)])
            (sh_c script) script).
  - vm_compute. reflexivity.
  - apply list_elem_of_here.
  - reflexivity.
  - reflexivity.
  - reflexivity.
  - reflexivity.
Defined.

(** X9. Adding a stage that renders puts its block at the end of the
    stage blocks, right before the closing text, and leaves the rest of
    the Jenkinsfile as it was; adding one that does not render makes
    [generateJenkinsfile] throw. *)
Theorem addStage_inserts_block
    (g : K8sPipelineGenerator) (stage : jsval) (out : string) :
  generateJenkinsfile g = Normal out ->
  exists body,
    out = body +:+ jenkins_closing
    /\ generateJenkinsfile (snd (addStage stage g))
       = match render_stage stage with
         | Normal block => Normal (body +:+ block +:+ jenkins_closing)
         | Throw e => Throw TypeError
         end.
Proof.
  unfold generateJenkinsfile. intros Hout.
  destruct (forEach (stages g) append_stage (jenkins_preamble g +:+ checkout_block))
    as [[u | e] content] eqn:Hloop; [| discriminate].
  injection Hout as <-.
  destruct (forEach_append_stage_inv _ _ _ _ Hloop) as (blocks & Hall & ->).
  eexists. split; [reflexivity |].
  rewrite addStage_appends. simpl snd. simpl stages.
  change (jenkins_preamble (set_stages g (stages g ++ [stage]))) with (jenkins_preamble g).
  destruct (render_stage stage) as [block | e] eqn:Hrender.
  - assert (Hall' : Forall2 (fun stage block => render_stage stage = Normal block)
                            (stages g ++ [stage]) (blocks ++ [block])).
    { apply Forall2_app; [exact Hall |]. now repeat constructor. }
    rewrite (forEach_append_stage_blocks _ _ _ Hall'), concat_blocks_app.
    change (concat_blocks [block]) with (block +:+ "").
    now rewrite append_empty_r, !append_assoc.
  - pose proof (render_stage_throws_TypeError _ _ Hrender) as ->.
    assert (Hbad : exists bad, bad ∈ stages g ++ [stage]
                               /\ render_stage bad = Throw TypeError).
    { exists stage. split; [| exact Hrender].
      apply elem_of_app. right. apply list_elem_of_here. }
    pose proof (forEach_append_stage_throws (stages g ++ [stage])
                  (jenkins_preamble g +:+ checkout_block) Hbad) as Hthrow.
    destruct (forEach (stages g ++ [stage]) append_stage
                (jenkins_preamble g +:+ checkout_block)) as [[u' | e'] content'];
      simpl in Hthrow; congruence.
Qed.

Lemma addStage_inserts_block_witness :
  exists out body,
    generateJenkinsfile three_stage_generator = Normal out
    /\ out = body +:+ jenkins_closing
    /\ generateJenkinsfile (snd (addStage plain_stage three_stage_generator))
       = Normal (body +:+ stage_block "test" "node" "npm test" +:+ jenkins_closing).
Proof.
  destruct (addStage_inserts_block three_stage_generator plain_stage
              (jenkins_preamble three_stage_generator +:+ checkout_block
               +:+ stage_block "test" "node" "npm test"
               +:+ stage_block "build" "node" "npm run build"
               +:+ stage_block "deploy-to-dev" "bitnami/kubectl"
                     "kubectl apply -f /workspace/k8s/${ENVIRONMENT}/"
               +:+ jenkins_closing)) as (body & Hout & Hnext).
  - vm_compute. reflexivity.
  - eexists. exists body. split; [vm_compute; reflexivity |].
    split; [| exact Hnext].
    rewrite <- Hout. vm_compute. reflexivity.
Defined.

(** ** Repository identifier, continued *)

Lemma match_pattern_inv_line (s rest : string) :
  match_here (literal "github" ++ AnyChar :: literal "com/") s = Some rest ->
  exists c, line_terminator c = false /\ s = "github" +:+ String c "com/" +:+ rest.
Proof.
  intros Hmatch.
  destruct (match_literal_inv "github" _ _ _ Hmatch) as (s2 & -> & H2).
  cbn [match_here] in H2. destruct s2 as [|c s2]; [discriminate |].
  destruct (line_terminator c) eqn:Hline; [discriminate |].
  destruct (match_literal_inv "com/" [] _ _ H2) as (s3 & -> & H3).
  cbn [match_here] in H3. injection H3 as ->. now exists c.
Qed.

(** What the greedy match leaves has no match on its own first line. *)
Lemma match_star_result_unmatched (s rest : string) :
  match_here github_pattern s = Some rest -> match_here github_pattern rest = None.
Proof.
  unfold github_pattern. revert rest. induction s as [|c s IH]; intros rest Hmatch.
  - rewrite match_star_empty in Hmatch. discriminate.
  - rewrite match_star_cons in Hmatch.
    destruct (line_terminator c) eqn:Hline.
    + destruct (match_pattern_inv_line _ _ Hmatch) as (c' & _ & Heq).
      rewrite append_cons in Heq. injection Heq as -> _. discriminate.
    + destruct (match_here (AnyStar :: literal "github" ++ AnyChar :: literal "com/") s)
        as [later |] eqn:Hstar.
      * injection Hmatch as ->. now apply IH.
      * destruct (match_pattern_inv_line _ _ Hmatch) as (c' & Hline' & Heq).
        rewrite append_cons in Heq. injection Heq as _ ->.
        destruct (match_here (AnyStar :: literal "github" ++ AnyChar :: literal "com/") rest)
          as [again |] eqn:Hagain; [| reflexivity].
        rewrite (match_star_extend _ ("ithub" +:+ String c' "com/") rest again)
          in Hstar; [discriminate | | exact Hagain].
        intros a Hin. rewrite list_ascii_of_string_append in Hin. simpl in Hin.
        repeat destruct Hin as [<- | Hin]; try reflexivity; try exact Hline'.
        destruct Hin.
Qed.

(** X10. The identifier is always what is left of the URL after removing
    a prefix, and deriving it again from the identifier changes nothing. *)
Theorem fullRepositoryId_idempotent (url : string) :
  (exists removed, url = removed +:+ fullRepositoryId url)
  /\ fullRepositoryId (fullRepositoryId url) = fullRepositoryId url.
Proof.
  split.
  - destruct (fullRepositoryId_inv url) as [-> | (before & c & Hcut)].
    + now exists "".
    + exists (before +:+ "github" +:+ String c "com/").
      now rewrite !append_assoc.
  - unfold fullRepositoryId, replace_anchored.
    destruct (match_here github_pattern url) as [rest |] eqn:Hmatch.
    + now rewrite (match_star_result_unmatched _ _ Hmatch).
    + now rewrite Hmatch.
Qed.

(** X11. A URL that begins with a line break is returned as it is,
    whatever follows: the pattern's [.*] does not cross a line
    terminator, so a [github.com/] further on is not reached. *)
Theorem fullRepositoryId_after_line_break (c : ascii) (rest : string) :
  line_terminator c = true ->
  fullRepositoryId (String c rest) = String c rest.
Proof.
  intros Hline. unfold fullRepositoryId, replace_anchored, github_pattern.
  rewrite match_star_cons, Hline.
  destruct (match_here (literal "github" ++ AnyChar :: literal "com/") (String c rest))
    as [cut |] eqn:Hmatch; [| reflexivity].
  destruct (match_pattern_inv_line _ _ Hmatch) as (c' & _ & Heq).
  rewrite append_cons in Heq. injection Heq as -> _. discriminate.
Qed.

Lemma fullRepositoryId_after_line_break_witness :
  fullRepositoryId (nl +:+ "https://github.com/myorg/my-nodejs-app")
  = nl +:+ "https://github.com/myorg/my-nodejs-app".
Proof.
  apply (fullRepositoryId_after_line_break (ascii_of_nat 10)
           "https://github.com/myorg/my-nodejs-app").
  reflexivity.
Defined.

Lemma no_github_no_match (url : string) :
  contains "github" url = false ->
  forall before c after, url <> before +:+ "github" +:+ String c "com/" +:+ after.
Proof.
  intros Hnone before c after ->.
  assert (Hoccurs : occurs_in "github" (before +:+ "github" +:+ String c "com/" +:+ after))
    by now exists before, (String c "com/" +:+ after).
  apply contains_complete in Hoccurs. congruence.
Qed.

Lemma fullRepositoryId_unmodified_witness :
  fullRepositoryId "git@gitlab.com:owner/repo" = "git@gitlab.com:owner/repo".
Proof.
  apply (fullRepositoryId_unmodified "git@gitlab.com:owner/repo").
  apply no_github_no_match. reflexivity.
Defined.

Lemma fullRepositoryId_github_prefix_witness :
  fullRepositoryId ("https://" +:+ "github.com/" +:+ "myorg/my-nodejs-app")
  = "myorg/my-nodejs-app".
Proof.
  apply (fullRepositoryId_github_prefix "https://" "myorg/my-nodejs-app").
  - simpl. intros c Hin. repeat destruct Hin as [<- | Hin]; try reflexivity. destruct Hin.
  - apply no_github_no_match. reflexivity.
Defined.

(** ** Manifests and template *)

Section FurtherArtifactProperties.
Context `{Externals} `{FileSystem}.

(** X12. [generateK8sService] serializes a Service whose single port
    entry and type are the arguments that are given ([null] included),
    with protocol TCP; an argument left out is 80 for the port, 8080 for
    the target port and ClusterIP for the type, and a Deployment rendered
    without [resources] requests cpu 100m and memory 128Mi. *)
Theorem manifest_arguments
    (g : K8sPipelineGenerator) (port targetPort type imageName tag : jsval) :
  port <> JUndefined ->
  targetPort <> JUndefined ->
  type <> JUndefined ->
  generateK8sService g port targetPort type = yaml_dump (k8sService g port targetPort type)
  /\ at_path (k8sService g port targetPort type) [Key "spec"; Key "ports"]
     = Normal (JArr [JObj [("port", port); ("targetPort", targetPort);
                           ("protocol", JStr "TCP")]])
  /\ at_path (k8sService g port targetPort type) [Key "spec"; Key "type"] = Normal type
  /\ at_path (k8sService g JUndefined JUndefined JUndefined) [Key "spec"; Key "ports"]
     = Normal (JArr [JObj [("port", JNum "80"); ("targetPort", JNum "8080");
                           ("protocol", JStr "TCP")]])
  /\ at_path (k8sService g JUndefined JUndefined JUndefined) [Key "spec"; Key "type"]
     = Normal (JStr "ClusterIP")
  /\ at_path (k8sDeployment g imageName tag JUndefined)
             (containers_path ++ [Idx 0; Key "resources"; Key "requests"])
     = Normal (JObj [("cpu", JStr "100m"); ("memory", JStr "128Mi")]).
Proof.
  intros Hport Htarget Htype. split; [reflexivity |].
  split; [| split; [| repeat split]].
  - destruct port, targetPort; try congruence; reflexivity.
  - destruct type; try congruence; reflexivity.
Qed.

(** X13. The Service and the Deployment of one generator fit together,
    whatever their arguments: the Service selects the label the
    Deployment puts on its pods and matches in its own selector
    ([app] = project name), both carry the project name and the
    namespace, and the Service's default target port is the container
    port of the Deployment. *)
Theorem service_selects_deployment_pods
    (g : K8sPipelineGenerator) (imageName tag resources port targetPort type : jsval) :
  let deployment := k8sDeployment g imageName tag resources in
  let service := k8sService g port targetPort type in
  at_path service [Key "spec"; Key "selector"]
  = Normal (JObj [("app", JStr (projectName g))])
  /\ at_path deployment [Key "spec"; Key "template"; Key "metadata"; Key "labels"]
     = at_path service [Key "spec"; Key "selector"]
  /\ at_path deployment [Key "spec"; Key "selector"; Key "matchLabels"]
     = at_path service [Key "spec"; Key "selector"]
  /\ at_path deployment [Key "metadata"; Key "name"] = Normal (JStr (projectName g))
  /\ at_path service [Key "metadata"; Key "name"] = Normal (JStr (projectName g))
  /\ at_path deployment [Key "metadata"; Key "namespace"] = Normal (JStr (namespace g))
  /\ at_path service [Key "metadata"; Key "namespace"] = Normal (JStr (namespace g))
  /\ at_path (k8sService g port JUndefined type)
             [Key "spec"; Key "ports"; Idx 0; Key "targetPort"]
     = at_path deployment
               (containers_path ++ [Idx 0; Key "ports"; Idx 0; Key "containerPort"]).
Proof. repeat split. Qed.

(** X14. The token that [generateK8sDeployment] puts in the image field
    is the token the [sed] command of the deploy build spec replaces by
    the image URI. *)
Theorem placeholder_is_what_deploy_replaces
    (g : K8sPipelineGenerator) (imageName tag resources : jsval) :
  exists token,
    at_path (k8sDeployment g imageName tag resources)
            (containers_path ++ [Idx 0; Key "image"]) = Normal (JStr token)
    /\ at_path deployBuildSpec [Key "phases"; Key "build"; Key "commands"; Idx 3]
       = Normal (JStr ("sed -i " +:+ dquote +:+ "s|" +:+ token +:+ "|$IMAGE_URI|g" +:+ dquote
                       +:+ " kubernetes/deployment.yaml"))
    /\ generateDeployBuildSpec g = yaml_dump deployBuildSpec.
Proof. eexists. repeat split. Qed.

(** X15. The template of [generateAwsCodePipeline] is closed: every
    [Ref] and [Fn::GetAtt] in it names one of its own resources; the
    Build action runs the project whose build spec is
    [generateBuildSpec] and the Deploy action the one whose build spec is
    [generateDeployBuildSpec]; and each stage takes as input the artifact
    the stage before it puts out. *)
Theorem template_is_closed (g : K8sPipelineGenerator) :
  let template := generateAwsCodePipeline g in
  exists resources source build deploy buildProject deployProject,
    get_prop template "Resources" = Normal resources
    /\ refs_of template <> []
    /\ Forall (fun name => name ∈ own_keys resources) (refs_of template)
    /\ at_path template stages_path = Normal (JArr [source; build; deploy])
    /\ at_path build [Key "Actions"; Idx 0; Key "Configuration"; Key "ProjectName"; Key "Ref"]
       = Normal (JStr buildProject)
    /\ at_path resources [Key buildProject; Key "Properties"; Key "Source"; Key "BuildSpec"]
       = Normal (JStr (generateBuildSpec g))
    /\ at_path deploy [Key "Actions"; Idx 0; Key "Configuration"; Key "ProjectName"; Key "Ref"]
       = Normal (JStr deployProject)
    /\ at_path resources [Key deployProject; Key "Properties"; Key "Source"; Key "BuildSpec"]
       = Normal (JStr (generateDeployBuildSpec g))
    /\ at_path build [Key "Actions"; Idx 0; Key "InputArtifacts"]
       = at_path source [Key "Actions"; Idx 0; Key "OutputArtifacts"]
    /\ at_path deploy [Key "Actions"; Idx 0; Key "InputArtifacts"]
       = at_path build [Key "Actions"; Idx 0; Key "OutputArtifacts"]
    /\ at_path source [Key "Actions"; Idx 0; Key "Configuration"]
       = Normal (JObj [("ConnectionArn", JStr "{{CONNECTION_ARN}}");
                       ("FullRepositoryId", JStr (fullRepositoryId (repoUrl g)));
                       ("BranchName", JStr (branch g))]).
Proof.
  intros template. do 6 eexists.
  split; [reflexivity |]. split; [discriminate |]. split.
  - cbn. repeat (constructor; [set_solver |]). constructor.
  - repeat split.
Qed.

(** ** Output writer, continued *)

Lemma last_write_none (p : string) (writes : list (string * string)) :
  p ∉ map fst writes -> last_write p writes = None.
Proof.
  induction writes as [|[p' data] writes IH]; intros Hout; [reflexivity |].
  simpl in *. apply not_elem_of_cons in Hout as [Hne Hout].
  rewrite (IH Hout). destruct (decide (p' = p)); congruence.
Qed.

Lemma last_write_nodup (p data : string) (writes : list (string * string)) :
  NoDup (map fst writes) -> (p, data) ∈ writes -> last_write p writes = Some data.
Proof.
  induction writes as [|[p' data'] writes IH]; intros Hnodup Hin; [inversion Hin |].
  simpl in Hnodup. apply NoDup_cons in Hnodup as [Hfresh Hnodup].
  simpl. apply elem_of_cons in Hin as [Heq | Hin].
  - injection Heq as <- <-. rewrite (last_write_none _ _ Hfresh).
    destruct (decide (p = p)); congruence.
  - now rewrite (IH Hnodup Hin).
Qed.


Lemma forEach_ensure_dir_keeps (paths : list string) (fs : filesystem) (q : string) :
  (forall q p d, fs_existsSync q d = true ->
                 fs_existsSync q (snd (fs_mkdirSync p true d)) = true) ->
  fs_existsSync q (disk_of fs) = true ->
  fs_existsSync q (disk_of (snd (forEach paths ensure_dir fs))) = true.
Proof.
  intros Hkeep. revert fs. induction paths as [|p paths IH]; intros fs Hq; [exact Hq |].
  cbn [forEach]. unfold bind. rewrite ensure_dir_run.
  destruct (fs_existsSync p (disk_of fs)).
  - now apply IH.
  - destruct (fst (fs_mkdirSync p true (disk_of fs))); cbn [outcome snd disk_of].
    + now apply Hkeep.
    + apply IH. cbn [disk_of]. now apply Hkeep.
Qed.

Lemma forEach_ensure_dir_exists (paths : list string) (fs fs' : filesystem) (u : unit) :
  (forall p d, fst (fs_mkdirSync p true d) = None ->
               fs_existsSync p (snd (fs_mkdirSync p true d)) = true) ->
  (forall q p d, fs_existsSync q d = true ->
                 fs_existsSync q (snd (fs_mkdirSync p true d)) = true) ->
  forEach paths ensure_dir fs = (Normal u, fs') ->
  forall p, p ∈ paths -> fs_existsSync p (disk_of fs') = true.
Proof.
  intros Hmade Hkeep. revert fs.
  induction paths as [|p paths IH]; intros fs Hrun q Hq; [inversion Hq |].
  cbn [forEach] in Hrun. unfold bind in Hrun.
  destruct (ensure_dir p fs) as [[[] | e] fs1] eqn:Hfirst; [| discriminate].
  apply elem_of_cons in Hq as [-> | Hq]; [| exact (IH fs1 Hrun q Hq)].
  assert (Hthere : fs_existsSync p (disk_of fs1) = true).
  { rewrite ensure_dir_run in Hfirst.
    destruct (fs_existsSync p (disk_of fs)) eqn:Hexists.
    - injection Hfirst as <-. exact Hexists.
    - destruct (fst (fs_mkdirSync p true (disk_of fs))) eqn:Hmkdir;
        cbn [outcome] in Hfirst; [discriminate |].
      injection Hfirst as <-. cbn [disk_of]. now apply Hmade. }
  pose proof (forEach_ensure_dir_keeps paths fs1 p Hkeep Hthere) as Hlater.
  now rewrite Hrun in Hlater.
Qed.

Lemma forEach_ensure_dir_present (paths : list string) (fs : filesystem) :
  (forall p, p ∈ paths -> fs_existsSync p (disk_of fs) = true) ->
  forEach paths ensure_dir fs = (Normal tt, fs).
Proof.
  induction paths as [|p paths IH]; intros Hall; [reflexivity |].
  cbn [forEach]. unfold bind. rewrite ensure_dir_run.
  rewrite (Hall p) by apply list_elem_of_here.
  apply IH. intros q Hq. apply Hall. now apply list_elem_of_further.
Qed.

Lemma write_all_keeps (writes : list (string * string)) (fs : filesystem) (q : string) :
  (forall q p data d, fs_existsSync q d = true ->
                      fs_existsSync q (snd (fs_writeFileSync p data d)) = true) ->
  fs_existsSync q (disk_of fs) = true ->
  fs_existsSync q (disk_of (snd (write_all writes fs))) = true.
Proof.
  intros Hkeep. unfold write_all. revert fs.
  induction writes as [|[p data] writes IH]; intros fs Hq; [exact Hq |].
  cbn [forEach fst snd]. unfold bind. rewrite writeFileSync_run.
  destruct (fst (fs_writeFileSync p data (disk_of fs))); cbn [outcome snd disk_of].
  - now apply Hkeep.
  - apply IH. cbn [disk_of]. now apply Hkeep.
Qed.

(** X17. On a disk where a directory just made exists and what exists
    keeps existing, a call of [saveToFiles] that follows one that
    returned makes no directory: it makes the same writes again, up to
    the first that fails, and what it returns, if it returns, is the same
    object. *)
Theorem saveToFiles_idempotent
    (g : K8sPipelineGenerator) (outputDir : option string) (fs fs' : filesystem)
    (returned : jsval) :
  (forall p d, fst (fs_mkdirSync p true d) = None ->
               fs_existsSync p (snd (fs_mkdirSync p true d)) = true) ->
  (forall q p d, fs_existsSync q d = true ->
                 fs_existsSync q (snd (fs_mkdirSync p true d)) = true) ->
  (forall q p data d, fs_existsSync q d = true ->
                      fs_existsSync q (snd (fs_writeFileSync p data d)) = true) ->
  saveToFiles g outputDir fs = (Normal returned, fs') ->
  let dir := default_arg "./pipeline" outputDir in
  let again := saveToFiles g outputDir fs' in
  exists jenkinsfile done,
    written fs' = written fs ++ all_writes g dir jenkinsfile
    /\ made (snd again) = made fs'
    /\ written (snd again) = written fs' ++ done
    /\ done `prefix_of` all_writes g dir jenkinsfile
    /\ (forall returned', fst again = Normal returned' ->
          returned' = returned /\ done = all_writes g dir jenkinsfile)
    /\ forall e, fst again = Throw e ->
         exists earlier p data d,
           done = earlier ++ [(p, data)]
           /\ fst (fs_writeFileSync p data d) = Some e.
Proof.
  intros Hmade Hkeep Hkeep' Hrun dir again.
  destruct (saveToFiles_returned g outputDir fs fs' returned Hrun)
    as (-> & jenkinsfile & Hjenkins & Hwritten).
  fold dir in Hwritten. fold dir.
  assert (Hthere : forall p, p ∈ wanted_directories g dir ->
                             fs_existsSync p (disk_of fs') = true).
  { rewrite saveToFiles_phases in Hrun. fold dir in Hrun. rewrite Hjenkins in Hrun.
    destruct (forEach (wanted_directories g dir) ensure_dir fs) as [[u | e] fs1] eqn:Hdirs;
      [| discriminate].
    intros p Hp.
    pose proof (forEach_ensure_dir_exists _ _ _ _ Hmade Hkeep Hdirs p Hp) as Hp1.
    pose proof (write_all_keeps (all_writes g dir jenkinsfile) fs1 p Hkeep' Hp1) as Hp2.
    destruct (write_all (all_writes g dir jenkinsfile) fs1) as [[[] | e] fs2];
      [| discriminate].
    injection Hrun as <-. exact Hp2. }
  subst again. rewrite saveToFiles_phases. fold dir.
  rewrite (forEach_ensure_dir_present _ _ Hthere), Hjenkins.
  pose proof (write_all_calls (all_writes g dir jenkinsfile) fs')
    as (Hsame & done & Hagain & Hprefix & Hall & Hthrown).
  exists jenkinsfile, done.
  destruct (write_all (all_writes g dir jenkinsfile) fs') as [[[] | e] fs2];
    cbn [fst snd] in *.
  - repeat split; try assumption; try discriminate.
    + congruence.
    + now apply (Hall tt).
  - repeat split; try assumption; try discriminate.
    intros e' [= <-]. now apply Hthrown.
Qed.

(** X18. When the Jenkinsfile does not render, [saveToFiles] throws and
    calls [writeFileSync] not once: it goes through the directories and
    then throws what the renderer threw, unless a [mkdirSync] has thrown
    before. *)
Theorem saveToFiles_throws_before_writing
    (g : K8sPipelineGenerator) (outputDir : option string) (fs : filesystem)
    (e : js_error) :
  generateJenkinsfile g = Throw e ->
  let dir := default_arg "./pipeline" outputDir in
  let run := saveToFiles g outputDir fs in
  run = match forEach (wanted_directories g dir) ensure_dir fs with
        | (Normal _, fs1) => (Throw e, fs1)
        | (Throw e1, fs1) => (Throw e1, fs1)
        end
  /\ written (snd run) = written fs
  /\ exists e',
      fst run = Throw e'
      /\ (e' = e
          \/ exists p d,
              p ∈ wanted_directories g dir
              /\ fs_existsSync p d = false
              /\ fst (fs_mkdirSync p true d) = Some e').
Proof.
  intros Hthrow dir run. subst run. rewrite saveToFiles_phases, Hthrow. fold dir.
  pose proof (forEach_ensure_dir_calls (wanted_directories g dir) fs)
    as (Hkept & dirs & _ & Hsub & Hfailed).
  destruct (forEach (wanted_directories g dir) ensure_dir fs) as [[[] | e1] fs1];
    cbn [fst snd] in *.
  - split; [reflexivity |]. split; [exact Hkept |]. exists e. auto.
  - split; [reflexivity |]. split; [exact Hkept |]. exists e1.
    split; [reflexivity |]. right.
    destruct (Hfailed e1 eq_refl) as (earlier & p & d & -> & Hexists & Hmkdir).
    exists p, d. split; [| auto].
    apply (sublist_submseteq _ _) in Hsub.
    eapply elem_of_submseteq; [| exact Hsub].
    apply elem_of_app. right. apply list_elem_of_here.
Qed.

(** X19. A call of [saveToFiles] that returns has handed each text to the
    path it belongs to: when the paths it writes to are all different,
    the one write to each of them carries the Jenkinsfile, the
    serialized template, the two build specs, and for every known
    environment the Deployment (rendered for [<projectName>-<env>]) and
    the Service rendered with their default arguments. *)
Theorem saveToFiles_file_contents
    (g : K8sPipelineGenerator) (outputDir : option string) (fs fs' : filesystem)
    (returned : jsval) :
  saveToFiles g outputDir fs = (Normal returned, fs') ->
  let dir := default_arg "./pipeline" outputDir in
  NoDup (written_paths g dir) ->
  exists jenkinsfile done,
    generateJenkinsfile g = Normal jenkinsfile
    /\ written fs' = written fs ++ done
    /\ map fst done = written_paths g dir
    /\ last_write (path_join dir "Jenkinsfile") done = Some jenkinsfile
    /\ last_write (path_join dir "aws-codepipeline.yaml") done
       = Some (yaml_dump (generateAwsCodePipeline g))
    /\ last_write (path_join dir "buildspec.yml") done = Some (generateBuildSpec g)
    /\ last_write (path_join dir "deploy-buildspec.yml") done
       = Some (generateDeployBuildSpec g)
    /\ forall env, env ∈ environments g ->
         last_write (manifest_path dir env "deployment.yaml") done
         = Some (generateK8sDeployment g (JStr (projectName g +:+ "-" +:+ env))
                                       JUndefined JUndefined)
         /\ last_write (manifest_path dir env "service.yaml") done
            = Some (generateK8sService g JUndefined JUndefined JUndefined).
Proof.
  intros Hrun dir Hnodup.
  destruct (saveToFiles_returned g outputDir fs fs' returned Hrun)
    as (_ & jenkinsfile & Hjenkins & Hwritten).
  fold dir in Hwritten.
  exists jenkinsfile, (all_writes g dir jenkinsfile).
  rewrite <- (written_paths_all_writes g dir jenkinsfile) in Hnodup.
  assert (Hheld : forall p data, (p, data) ∈ all_writes g dir jenkinsfile ->
                    last_write p (all_writes g dir jenkinsfile) = Some data).
  { intros p data Hin. now apply last_write_nodup. }
  assert (Htop : forall p data, (p, data) ∈ top_level_writes g dir jenkinsfile ->
                                (p, data) ∈ all_writes g dir jenkinsfile).
  { intros p data Hin. unfold all_writes. apply elem_of_app. now left. }
  split; [exact Hjenkins |]. split; [exact Hwritten |].
  split; [apply written_paths_all_writes |].
  repeat split.
  - apply Hheld, Htop. apply list_elem_of_here.
  - apply Hheld, Htop. do 1 apply list_elem_of_further. apply list_elem_of_here.
  - apply Hheld, Htop. do 2 apply list_elem_of_further. apply list_elem_of_here.
  - apply Hheld, Htop. do 3 apply list_elem_of_further. apply list_elem_of_here.
  - apply Hheld. unfold all_writes, manifest_writes. apply elem_of_app. right.
    apply list_elem_of_In, in_flat_map. exists env.
    split; [now apply list_elem_of_In | now left].
  - apply Hheld. unfold all_writes, manifest_writes. apply elem_of_app. right.
    apply list_elem_of_In, in_flat_map. exists env.
    split; [now apply list_elem_of_In | right; now left].
Qed.

End FurtherArtifactProperties.

(** ** The further properties on concrete runs *)

Lemma manifest_arguments_witness :
  @generateK8sService stand_ins example_generator (JNum "8080") JNull (JStr "LoadBalancer")
  = flow_dump (k8sService example_generator (JNum "8080") JNull (JStr "LoadBalancer"))
  /\ at_path (k8sService example_generator (JNum "8080") JNull (JStr "LoadBalancer"))
             [Key "spec"; Key "ports"]
     = Normal (JArr [JObj [("port", JNum "8080"); ("targetPort", JNull);
                           ("protocol", JStr "TCP")]])
  /\ at_path (k8sService example_generator (JNum "8080") JNull (JStr "LoadBalancer"))
             [Key "spec"; Key "type"] = Normal (JStr "LoadBalancer")
  /\ at_path (k8sService example_generator JUndefined JUndefined JUndefined)
             [Key "spec"; Key "ports"]
     = Normal (JArr [JObj [("port", JNum "80"); ("targetPort", JNum "8080");
                           ("protocol", JStr "TCP")]])
  /\ at_path (k8sService example_generator JUndefined JUndefined JUndefined)
             [Key "spec"; Key "type"]
     = Normal (JStr "ClusterIP")
  /\ at_path (k8sDeployment example_generator (JStr "custom-app") (JStr "v1.0.0") JUndefined)
             (containers_path ++ [Idx 0; Key "resources"; Key "requests"])
     = Normal (JObj [("cpu", JStr "100m"); ("memory", JStr "128Mi")]).
Proof.
  apply (@manifest_arguments stand_ins example_generator (JNum "8080") JNull
           (JStr "LoadBalancer") (JStr "custom-app") (JStr "v1.0.0")); discriminate.
Defined.


(** A regular file where the [k8s] directory is to be: the directory of
    the first environment cannot be made, and nothing is written. *)
Lemma saveToFiles_blocked :
  let run := @saveToFiles stand_ins memory_fs three_stage_generator (Some "out") blocked_fs in
  fst run = Throw (SystemError "ENOTDIR")
  /\ made (snd run) = ["out/k8s/dev"]
  /\ written (snd run) = [].
Proof. vm_compute. auto. Qed.

(** The laws of the disk in memory. *)
Lemma node_at_insert (q p : string) (x : node) (m : gmap string node) :
  is_Some (node_at q m) -> is_Some (node_at q (<[p := x]> m)).
Proof.
  unfold node_at. destruct (String.eqb q EmptyString || String.eqb q "."); [auto |].
  rewrite lookup_insert_is_Some'. auto.
Qed.

Lemma node_at_insert_same (p : string) (x : node) (m : gmap string node) :
  is_Some (node_at p (<[p := x]> m)).
Proof.
  unfold node_at. destruct (String.eqb p EmptyString || String.eqb p "."); [eauto |].
  rewrite lookup_insert_eq. eauto.
Qed.

Lemma make_path_keeps (target q : string) (path : list string) (m : gmap string node) :
  is_Some (node_at q m) -> is_Some (node_at q (snd (make_path target path m))).
Proof.
  revert m. induction path as [|p path IH]; intros m Hq; [exact Hq |].
  simpl. destruct (node_at p m) as [[| data] |]; [now apply IH | exact Hq |].
  apply IH. now apply node_at_insert.
Qed.

Lemma make_path_made (target : string) (path : list string) (m : gmap string node) :
  fst (make_path target path m) = None ->
  forall q, q ∈ path -> is_Some (node_at q (snd (make_path target path m))).
Proof.
  revert m. induction path as [|p path IH]; intros m Hdone q Hq; [inversion Hq |].
  simpl in *. destruct (node_at p m) as [[| data] |] eqn:Hp; [| discriminate |].
  - apply elem_of_cons in Hq as [-> | Hq]; [| now apply IH].
    apply make_path_keeps. rewrite Hp. eauto.
  - apply elem_of_cons in Hq as [-> | Hq]; [| now apply IH].
    apply make_path_keeps, node_at_insert_same.
Qed.

Lemma memory_mkdir_made (p : string) (d : @disk memory_fs) :
  fst (@fs_mkdirSync memory_fs p true d) = None ->
  @fs_existsSync memory_fs p (snd (@fs_mkdirSync memory_fs p true d)) = true.
Proof.
  simpl. unfold memory_mkdir. intros Hdone. apply bool_decide_eq_true.
  apply make_path_made; [exact Hdone |].
  apply elem_of_app. right. apply list_elem_of_here.
Qed.

Lemma memory_mkdir_keeps (q p : string) (d : @disk memory_fs) :
  @fs_existsSync memory_fs q d = true ->
  @fs_existsSync memory_fs q (snd (@fs_mkdirSync memory_fs p true d)) = true.
Proof.
  simpl. unfold memory_mkdir. intros Hq. apply bool_decide_eq_true.
  apply bool_decide_eq_true in Hq. now apply make_path_keeps.
Qed.

Lemma memory_write_keeps (q p data : string) (d : @disk memory_fs) :
  @fs_existsSync memory_fs q d = true ->
  @fs_existsSync memory_fs q (snd (@fs_writeFileSync memory_fs p data d)) = true.
Proof.
  simpl. unfold memory_write. intros Hq. apply bool_decide_eq_true.
  apply bool_decide_eq_true in Hq.
  destruct (node_at p d) as [[| text] |], (parent_at p d) as [[| text'] |];
    simpl; try exact Hq; now apply node_at_insert.
Qed.

(** Saving twice on the disk in memory: the second call makes no
    directory and the same ten writes. *)
Lemma saveToFiles_idempotent_witness :
  let run := @saveToFiles stand_ins memory_fs three_stage_generator (Some "out") empty_fs in
  let again :=
    @saveToFiles stand_ins memory_fs three_stage_generator (Some "out") (snd run) in
  run = (Normal (@returned_paths stand_ins "out"), snd run)
  /\ made (snd run) = ["out"; "out/k8s"; "out/k8s/dev"; "out/k8s/staging"; "out/k8s/prod"]
  /\ exists jenkinsfile done,
      written (snd run) = @all_writes stand_ins three_stage_generator "out" jenkinsfile
      /\ made (snd again) = made (snd run)
      /\ written (snd again) = written (snd run) ++ done
      /\ done `prefix_of` @all_writes stand_ins three_stage_generator "out" jenkinsfile
      /\ (forall returned', fst again = Normal returned' ->
            returned' = @returned_paths stand_ins "out"
            /\ done = @all_writes stand_ins three_stage_generator "out" jenkinsfile)
      /\ forall e, fst again = Throw e ->
           exists earlier p data d,
             done = earlier ++ [(p, data)]
             /\ fst (memory_write p data d) = Some e.
Proof.
  intros run again.
  assert (Hrun : run = (Normal (@returned_paths stand_ins "out"), snd run))
    by (vm_compute; reflexivity).
  split; [exact Hrun |]. split; [vm_compute; reflexivity |].
  exact (@saveToFiles_idempotent stand_ins memory_fs three_stage_generator (Some "out")
           empty_fs (snd run) _ memory_mkdir_made memory_mkdir_keeps memory_write_keeps
           Hrun).
Defined.

Lemma saveToFiles_throws_before_writing_witness :
  let g := set_stages example_generator [plain_stage; no_steps_stage] in
  let run := @saveToFiles stand_ins memory_fs g (Some "out") seeded_fs in
  generateJenkinsfile g = Throw TypeError
  /\ fst run = Throw TypeError
  /\ made (snd run) = ["out/k8s"; "out/k8s/dev"; "out/k8s/staging"; "out/k8s/prod"]
  /\ written (snd run) = written seeded_fs.
Proof.
  intros g run.
  assert (Hthrow : generateJenkinsfile g = Throw TypeError) by (vm_compute; reflexivity).
  destruct (@saveToFiles_throws_before_writing stand_ins memory_fs g (Some "out")
              seeded_fs TypeError Hthrow) as (Hrun & Hwritten & _).
  split; [exact Hthrow |]. split; [| split; [| exact Hwritten]].
  - fold run in Hrun. rewrite Hrun. vm_compute. reflexivity.
  - fold run in Hrun. rewrite Hrun. vm_compute. reflexivity.
Defined.

Lemma written_paths_distinct :
  NoDup (@written_paths stand_ins three_stage_generator "out").
Proof.
  vm_compute.
  repeat (constructor;
          [intros Hin;
           repeat (apply elem_of_cons in Hin as [Heq | Hin]; [discriminate Heq |]);
           inversion Hin |]).
  constructor.
Qed.

Lemma saveToFiles_file_contents_witness :
  let run := @saveToFiles stand_ins memory_fs three_stage_generator (Some "out") empty_fs in
  run = (Normal (@returned_paths stand_ins "out"), snd run)
  /\ exists jenkinsfile done,
      generateJenkinsfile three_stage_generator = Normal jenkinsfile
      /\ written (snd run) = done
      /\ map fst done = @written_paths stand_ins three_stage_generator "out"
      /\ last_write "out/Jenkinsfile" done = Some jenkinsfile
      /\ last_write "out/aws-codepipeline.yaml" done
         = Some (flow_dump (@generateAwsCodePipeline stand_ins three_stage_generator))
      /\ last_write "out/buildspec.yml" done
         = Some (@generateBuildSpec stand_ins three_stage_generator)
      /\ last_write "out/deploy-buildspec.yml" done
         = Some (@generateDeployBuildSpec stand_ins three_stage_generator)
      /\ forall env, env ∈ environments three_stage_generator ->
           last_write (@manifest_path stand_ins "out" env "deployment.yaml") done
           = Some (@generateK8sDeployment stand_ins three_stage_generator
                     (JStr (projectName three_stage_generator +:+ "-" +:+ env))
                     JUndefined JUndefined)
           /\ last_write (@manifest_path stand_ins "out" env "service.yaml") done
              = Some (@generateK8sService stand_ins three_stage_generator
                        JUndefined JUndefined JUndefined).
Proof.
  intros run.
  assert (Hrun : run = (Normal (@returned_paths stand_ins "out"), snd run))
    by (vm_compute; reflexivity).
  split; [exact Hrun |].
  exact (@saveToFiles_file_contents stand_ins memory_fs three_stage_generator (Some "out")
           empty_fs (snd run) _ Hrun written_paths_distinct).
Defined.
